(** * ascii-timer: a terminal stopwatch drawn in block digits

    Shallow embedding of [internal/asciitimer/ascii_timer.go] and the
    properties of its renderer, its terminal mode controller, its input
    watcher and its timer loop.

    Conventions of the embedding.
    - A Go [string] is a sequence of bytes: it is a [string] here, and the
      block character of the glyph tables is the three bytes of its UTF-8
      encoding, as in the compiled program.
    - A Go [int], [uint32], [uint8] or [time.Duration] is a [Z]; where the
      source can overflow, the wrap-around is written out.
    - A slice or array is a list, read with [!!]; an index out of range is
      a run-time panic in Go and [None] here.
    - System calls, printing, the goroutine launch and [os.Exit] are
      recorded in a log carried by an explicit world state. *)

From Stdlib Require Import ZArith String Ascii SpecFloat.
From Equations Require Import Equations.
From stdpp Require Import base list strings.

Open Scope Z_scope.

(** ** Byte strings *)

Module Strings.

(** The byte [b] as the unsigned number Go sees. *)
Definition byteVal (b : ascii) : Z := Z.of_N (N_of_ascii b).

(** The line break ["\n"]. *)
Definition nl : string := String (ascii_of_N 10) "".

(** The escape character ["\033"]. *)
Definition esc : string := String (ascii_of_N 27) "".

(** [strings.Join(elems, sep)]. *)
Fixpoint Join (elems : list string) (sep : string) : string :=
  match elems with
  | [] => ""
  | e :: rest =>
      match rest with
      | [] => e
      | _ :: _ => e +:+ sep +:+ Join rest sep
      end
  end.

(** The lines of a text: the pieces between its line breaks. *)
Fixpoint lines (s : string) : list string :=
  match s with
  | EmptyString => [""]
  | String c rest =>
      if (byteVal c =? 10) then "" :: lines rest
      else match lines rest with
           | l :: ls => String c l :: ls
           | [] => [String c ""]
           end
  end.

(** A byte of the form 10xxxxxx continues a UTF-8 sequence; every other
    byte starts a character. *)
Definition isContinuation (b : ascii) : bool :=
  Z.land (byteVal b) 192 =? 128.

(** The number of characters (code points) of a UTF-8 text, which is its
    width in terminal columns for the texts of this program. *)
Fixpoint runeCount (s : string) : nat :=
  match s with
  | EmptyString => 0
  | String b rest =>
      if isContinuation b then runeCount rest else S (runeCount rest)
  end.

(** No line break inside [s]. *)
Fixpoint oneLine (s : string) : bool :=
  match s with
  | EmptyString => true
  | String c rest => negb (byteVal c =? 10) && oneLine rest
  end.

End Strings.

(** ** [fmt]: the verb [%02d] *)

Module Fmt.
Import Strings.

(** [byte('0' + u)] *)
Definition digitByte (u : Z) : ascii := ascii_of_N (Z.to_N (48 + u)).

(** The digit loop of [fmtInteger] in base 10, which fills the buffer
    from its end:
<<
    for u >= 10 { i--; next := u / 10; buf[i] = byte('0' + u - next*10); u = next }
    i--; buf[i] = digits[u]
>>
    [buf] is the part of the buffer already written. *)
Equations fmtDecimal (u : Z) (buf : string) : string
  by wf (Z.to_nat (Z.log2 u)) lt :=
  fmtDecimal u buf with Z_lt_dec u 10 => {
    | left _ := String (digitByte u) buf;
    | right _ :=
        fmtDecimal (u / 10) (String (digitByte (u - u / 10 * 10)) buf) }.
Next Obligation.
  intros u Hu _ _.
  assert (H1 : u / 10 <= u / 2) by (apply Z.div_le_compat_l; lia).
  assert (H2 : Z.log2 (u / 2) = Z.log2 u - 1).
  { rewrite <- Z.div2_div, Z.div2_spec, Z.log2_shiftr by lia.
    assert (1 <= Z.log2 u) by (apply Z.log2_le_pow2; lia). lia. }
  pose proof (Z.log2_le_mono _ _ H1).
  pose proof (Z.log2_nonneg (u / 10)). lia.
Qed.

(** [for i > 0 && prec > len(buf)-i { i--; buf[i] = '0' }] *)
Definition padZeros (prec : Z) (buf : string) : string :=
  String.concat "" (replicate (Z.to_nat (prec - Z.of_nat (String.length buf))) "0")
    +:+ buf.

(** [fmtInteger] for a signed decimal with the zero flag and width [wid]
    (the verb [%0<wid>d]): the zero padding is a precision of [wid],
    less one when a sign is written; the sign comes last, in front. The
    padding with spaces that follows is switched off by the zero flag. *)
Definition fmtInteger (n : Z) (wid : Z) : string :=
  let negative := n <? 0 in
  let u := if negative then - n else n in
  let prec := if negative then wid - 1 else wid in
  let buf := padZeros prec (fmtDecimal u "") in
  if negative then String "-" buf else buf.

(** [fmt.Sprintf("%02d:%02d:%02d", h, m, s)] *)
Definition Sprintf_02d_02d_02d (h m s : Z) : string :=
  fmtInteger h 2 +:+ ":" +:+ fmtInteger m 2 +:+ ":" +:+ fmtInteger s 2.

End Fmt.

(** ** The glyph tables *)

Definition digits : list (list string) :=
  [ (* 0 *)
      [ "█████";
        "█   █";
        "█   █";
        "█   █";
        "█████" ];
    (* 1 *)
      [ "  █  ";
        " ██  ";
        "  █  ";
        "  █  ";
        "█████" ];
    (* 2 *)
      [ "█████";
        "    █";
        "█████";
        "█    ";
        "█████" ];
    (* 3 *)
      [ "█████";
        "    █";
        "█████";
        "    █";
        "█████" ];
    (* 4 *)
      [ "█   █";
        "█   █";
        "█████";
        "    █";
        "    █" ];
    (* 5 *)
      [ "█████";
        "█    ";
        "█████";
        "    █";
        "█████" ];
    (* 6 *)
      [ "█████";
        "█    ";
        "█████";
        "█   █";
        "█████" ];
    (* 7 *)
      [ "█████";
        "    █";
        "   █ ";
        "  █  ";
        " █   " ];
    (* 8 *)
      [ "█████";
        "█   █";
        "█████";
        "█   █";
        "█████" ];
    (* 9 *)
      [ "█████";
        "█   █";
        "█████";
        "    █";
        "█████" ] ].

Definition colon : list string :=
  [ " ";
    "█";
    " ";
    "█";
    " " ].

Definition pausedText : list string :=
  [ "█████  █████  █   █  █████  █████  ████ ";
    "█   █  █   █  █   █  █      █      █   █";
    "█████  █████  █   █  █████  █████  █   █";
    "█      █   █  █   █      █  █      █   █";
    "█      █   █  █████  █████  █████  ████ " ].

(** ** The renderer *)

(** One step of the inner loop of [getASCIITime]: the text appended to
    [line] for [char] on [row], or [None] where the index expression
    [digits[digit][row]] is out of range. *)
Definition glyphCell (row : nat) (char : ascii) : option string :=
  if Strings.byteVal char =? 58 (* ':' *) then
    g ← colon !! row; Some (g +:+ " ")
  else
    let digit := Strings.byteVal char - 48 (* '0' *) in
    if (0 <=? digit) && (digit <? Z.of_nat (length digits)) then
      glyph ← digits !! Z.to_nat digit;
      g ← glyph !! row;
      Some (g +:+ " ")
    else None.

(** [for _, char := range timeStr { ... line += ... }]. The text comes
    from [Sprintf] and is plain ASCII, so the characters ranged over are
    its bytes. *)
Fixpoint renderLine (row : nat) (timeStr : string) (line : string)
  : option string :=
  match timeStr with
  | EmptyString => Some line
  | String char rest =>
      cell ← glyphCell row char;
      renderLine row rest (line +:+ cell)
  end.

(** [for row := 0; row < 5; row++ { ...; result = append(result, line) }] *)
Fixpoint renderRows (rows : list nat) (timeStr : string) (result : list string)
  : option (list string) :=
  match rows with
  | [] => Some result
  | row :: rows' =>
      line ← renderLine row timeStr "";
      renderRows rows' timeStr (result ++ [line])
  end.

(** [getASCIITime(h, m, s)]; [None] is the run-time panic of an index out
    of range. *)
Definition getASCIITime (h m s : Z) : option string :=
  let timeStr := Fmt.Sprintf_02d_02d_02d h m s in
  result ← renderRows (seq 0 5) timeStr [];
  Some (Strings.Join result Strings.nl).

(** ** [float64] and [time.Duration] *)

Module Float64.

(** IEEE 754 binary64, round to nearest even, as [SpecFloat] gives it. *)
Definition prec : Z := 53.
Definition emax : Z := 1024.

(** The conversion [float64(n)] of an integer. *)
Definition ofInt (n : Z) : spec_float :=
  match n with
  | Z0 => S754_zero false
  | Zpos p => binary_normalize prec emax (Zpos p) 0 false
  | Zneg p => SFopp (binary_normalize prec emax (Zpos p) 0 false)
  end.

Definition add : spec_float -> spec_float -> spec_float := SFadd prec emax.
Definition div : spec_float -> spec_float -> spec_float := SFdiv prec emax.

(** The conversion [int(f)]: the fraction is discarded (truncation
    towards zero). A value that does not fit an [int] yields the
    integer indefinite value of amd64; no duration reaches that case. *)
Definition toInt (f : spec_float) : Z :=
  match f with
  | S754_zero _ => 0
  | S754_finite sign m e =>
      let a := if 0 <=? e then Zpos m * 2 ^ e else Zpos m / 2 ^ (- e) in
      let v := if sign then - a else a in
      if (- 2 ^ 63 <=? v) && (v <? 2 ^ 63) then v else - 2 ^ 63
  | _ => - 2 ^ 63
  end.

End Float64.

Module Duration.

Definition Second : Z := 1000000000.
Definition Minute : Z := 60 * Second.
Definition Hour : Z := 60 * Minute.

Definition minDuration : Z := - 2 ^ 63.
Definition maxDuration : Z := 2 ^ 63 - 1.

(** Arithmetic on [int64] wraps around. *)
Definition wrap64 (z : Z) : Z := (z + 2 ^ 63) mod 2 ^ 64 - 2 ^ 63.

(** [func (d Duration) Seconds() float64]:
    [sec := d / Second; nsec := d % Second;
     return float64(sec) + float64(nsec)/1e9]. *)
Definition Seconds (d : Z) : spec_float :=
  let sec := Z.quot d Second in
  let nsec := Z.rem d Second in
  Float64.add (Float64.ofInt sec)
    (Float64.div (Float64.ofInt nsec) (Float64.ofInt 1000000000)).

(** [func (d Duration) Minutes() float64]:
    [min := d / Minute; nsec := d % Minute;
     return float64(min) + float64(nsec)/(60*1e9)]. *)
Definition Minutes (d : Z) : spec_float :=
  let min := Z.quot d Minute in
  let nsec := Z.rem d Minute in
  Float64.add (Float64.ofInt min)
    (Float64.div (Float64.ofInt nsec) (Float64.ofInt (60 * 1000000000))).

(** [func (d Duration) Hours() float64]:
    [hour := d / Hour; nsec := d % Hour;
     return float64(hour) + float64(nsec)/(60*60*1e9)]. *)
Definition Hours (d : Z) : spec_float :=
  let hour := Z.quot d Hour in
  let nsec := Z.rem d Hour in
  Float64.add (Float64.ofInt hour)
    (Float64.div (Float64.ofInt nsec) (Float64.ofInt (60 * 60 * 1000000000))).

End Duration.

(** An instant. [time.Time{}] is [ZeroTime]; a value of [time.Now()] is
    [MonoTime ns], its reading of the monotonic clock in nanoseconds
    (an [int64]), which is what [time.Since] subtracts. The wall clock of
    a running system never shows the zero instant (1 January of year 1),
    so [IsZero] is false of every [time.Now()]. *)
Inductive Time :=
| ZeroTime
| MonoTime (ns : Z).

Definition IsZero (t : Time) : bool :=
  match t with ZeroTime => true | MonoTime _ => false end.

(** [subMono(t, u)]: the difference of two monotonic readings, saturated. *)
Definition subMono (t u : Z) : Z :=
  let d := Duration.wrap64 (t - u) in
  if (d <? 0) && (u <? t) then Duration.maxDuration
  else if (0 <? d) && (t <? u) then Duration.minDuration
  else d.

(** [time.Since(t)] when the clock reads [now]. The zero instant lies more
    than 292 years back, so its distance saturates. *)
Definition Since (now : Z) (t : Time) : Z :=
  match t with
  | ZeroTime => Duration.maxDuration
  | MonoTime u => subMono now u
  end.

(** ** The terminal and the world *)

Record Termios := mkTermios {
  Iflag : Z;      (* uint32 *)
  Oflag : Z;      (* uint32 *)
  Cflag : Z;      (* uint32 *)
  Lflag : Z;      (* uint32 *)
  Line : Z;       (* uint8 *)
  Cc : list Z;    (* [19]uint8 *)
  Ispeed : Z;     (* uint32 *)
  Ospeed : Z      (* uint32 *)
}.

(** [&Termios{}] *)
Definition zeroTermios : Termios :=
  mkTermios 0 0 0 0 0 (replicate 19 0) 0 0.

Definition TCGETS : Z := 0x5401.
Definition TCSETS : Z := 0x5402.
Definition ECHO : Z := 0x00000008.
Definition ICANON : Z := 0x00000002.
Definition VMIN : Z := 0x6.
Definition VTIME : Z := 0x5.

(** What the program does to its surroundings, in order. *)
Inductive Event :=
| Ioctl (fd req : Z) (arg : Termios) (errno : Z)
    (* syscall.Syscall(SYS_IOCTL, fd, req, &arg), which returned errno *)
| Print (text : string)         (* bytes written to standard output *)
| PrintfError (errno : Z)       (* the message of a failed makeRaw *)
| Notify                        (* signal.Notify(sigChan, SIGINT, SIGTERM) *)
| GoWatcher                     (* go func() { ... }() *)
| NewTicker                     (* time.NewTicker(1 * time.Second) *)
| Exit (code : Z).              (* os.Exit(code) *)

(** The world: the settings of the terminal, the errno of each
    [ioctl] still to come (0 is success, as is an exhausted list), and
    the log of what has happened. *)
Record World := mkWorld {
  tty : Termios;
  faults : list Z;
  log : list Event
}.

(** A program step: it reads and changes the world. *)
Definition Prog (A : Type) : Type := World -> A * World.

#[global] Instance Prog_ret : MRet Prog := fun A a w => (a, w).
#[global] Instance Prog_bind : MBind Prog :=
  fun A B f m w => let '(a, w') := m w in f a w'.

Definition emit (e : Event) : Prog unit :=
  fun w => (tt, mkWorld (tty w) (faults w) (log w ++ [e])).

(** The errno of the next system call. *)
Definition nextErrno (errnos : list Z) : Z :=
  match errnos with [] => 0 | e :: _ => e end.

(** The [ioctl] system call on the terminal. [TCGETS] copies the settings
    out, [TCSETS] installs the given ones; a failing call changes
    nothing. Any other request is refused with [ENOTTY]. *)
Definition ioctl (fd req : Z) (arg : Termios) : Prog (Termios * Z) :=
  fun w =>
    let errno := nextErrno (faults w) in
    let rest := tail (faults w) in
    if negb (errno =? 0) then
      ((arg, errno), mkWorld (tty w) rest (log w ++ [Ioctl fd req arg errno]))
    else if req =? TCGETS then
      ((tty w, 0), mkWorld (tty w) rest (log w ++ [Ioctl fd req arg 0]))
    else if req =? TCSETS then
      ((arg, 0), mkWorld arg rest (log w ++ [Ioctl fd req arg 0]))
    else
      ((arg, 25), mkWorld (tty w) rest (log w ++ [Ioctl fd req arg 25])).

(** The pair of a pointer to [Termios] and an [error] that [makeRaw]
    returns: one of the two is set. *)
Inductive Result :=
| Ok (state : Termios)
| Err (errno : Z).

(** The settings [makeRaw] installs, from the ones it read. *)
Definition rawSettings (termios : Termios) : Termios :=
  (* termios.Lflag &^= uint32(ICANON | ECHO) *)
  let lflag := Z.ldiff (Lflag termios) (Z.lor ICANON ECHO) in
  (* termios.Cc[VMIN] = 1 *)
  let cc := <[Z.to_nat VMIN := 1]> (Cc termios) in
  (* termios.Cc[VTIME] = 0 *)
  let cc := <[Z.to_nat VTIME := 0]> cc in
  mkTermios (Iflag termios) (Oflag termios) (Cflag termios) lflag
    (Line termios) cc (Ispeed termios) (Ospeed termios).

(** [makeRaw(fd)]: read the settings, keep a copy, install the raw ones,
    and return the copy; either call failing, return its errno. *)
Definition makeRaw (fd : Z) : Prog Result :=
  '(termios, errno) ← ioctl fd TCGETS zeroTermios;
  if negb (errno =? 0) then mret (Err errno)
  else
    let oldTermios := termios in
    let termios := rawSettings termios in
    '(_, errno) ← ioctl fd TCSETS termios;
    if negb (errno =? 0) then mret (Err errno)
    else mret (Ok oldTermios).

(** [restoreTerminal]; the result is the errno, 0 for [nil]. *)
Definition restoreTerminal (fd : Z) (oldState : Termios) : Prog Z :=
  '(_, errno) ← ioctl fd TCSETS oldState;
  mret errno.

(** [clearScreen()]: cursor home, then erase the display. *)
Definition clearScreen : Prog unit :=
  emit (Print (Strings.esc +:+ "[H" +:+ Strings.esc +:+ "[2J")).

(** ** The timer *)

(** The variables of [RunTimer] that its two goroutines share, and the
    one-byte buffer of the watcher. *)
Record TimerState := mkTimer {
  isPaused : bool;
  startTime : Time;
  pausedDuration : Z;     (* time.Duration *)
  pauseStart : Time;
  buf0 : Z                (* buf[0] *)
}.

(** How far the process has got. *)
Inductive Status :=
| Running               (* still in its loops *)
| Returned              (* RunTimer returned *)
| Exited (code : Z)     (* os.Exit(code) was called *)
| Panicked.             (* a run-time panic unwound RunTimer *)

(** What the scheduler delivers to the two goroutines. [now] is the
    reading of the monotonic clock at that moment. *)
Inductive Input :=
| Key (b : Z) (now : Z)     (* os.Stdin.Read stored the byte b in buf[0] *)
| ReadError (now : Z)       (* os.Stdin.Read failed and left buf untouched *)
| Tick (now : Z)            (* a value arrived on ticker.C *)
| Signal.                   (* a value arrived on sigChan *)

(** [os.Stdin.Read(buf)] stored the byte [b]. *)
Definition setBuf (b : Z) (st : TimerState) : TimerState :=
  mkTimer (isPaused st) (startTime st) (pausedDuration st) (pauseStart st) b.

(** The statement [if buf[0] == 'p' || buf[0] == 'P' { ... }]. *)
Definition pauseLogic (now : Z) (st : TimerState) : TimerState :=
  if (buf0 st =? 112) || (buf0 st =? 80) then
    let paused := negb (isPaused st) in
    if paused then
      mkTimer paused (startTime st) (pausedDuration st) (MonoTime now) (buf0 st)
    else if negb (IsZero (pauseStart st)) then
      mkTimer paused (startTime st)
        (Duration.wrap64 (pausedDuration st + Since now (pauseStart st)))
        (pauseStart st) (buf0 st)
    else
      mkTimer paused (startTime st) (pausedDuration st) (pauseStart st) (buf0 st)
  else st.

(** The statement [if buf[0] == 3 || buf[0] == 'q' { ... }]. *)
Definition quitLogic (fd : Z) (oldState : Termios) (st : TimerState)
  : Prog Status :=
  if (buf0 st =? 3) || (buf0 st =? 113) then
    _ ← restoreTerminal fd oldState;
    _ ← emit (Exit 0);
    mret (Exited 0)
  else mret Running.

(** One turn of the watcher's loop, after [os.Stdin.Read(buf)] returned. *)
Definition watcherStep (fd : Z) (oldState : Termios) (read : option Z)
    (now : Z) (st : TimerState) : Prog (TimerState * Status) :=
  let st := match read with Some b => setBuf b st | None => st end in
  let st := pauseLogic now st in
  status ← quitLogic fd oldState st;
  mret (st, status).

(** [elapsed := time.Since(startTime) - pausedDuration] *)
Definition elapsedShown (now : Z) (st : TimerState) : Z :=
  Duration.wrap64 (Since now (startTime st) - pausedDuration st).

(** [hours := int(elapsed.Hours())], [minutes := int(elapsed.Minutes()) % 60],
    [seconds := int(elapsed.Seconds()) % 60]. *)
Definition hoursOf (elapsed : Z) : Z :=
  Float64.toInt (Duration.Hours elapsed).
Definition minutesOf (elapsed : Z) : Z :=
  Z.rem (Float64.toInt (Duration.Minutes elapsed)) 60.
Definition secondsOf (elapsed : Z) : Z :=
  Z.rem (Float64.toInt (Duration.Seconds elapsed)) 60.

(** The case [<-ticker.C] of the main loop. *)
Definition tickStep (now : Z) (st : TimerState) : Prog Status :=
  _ ← clearScreen;
  let elapsed := elapsedShown now st in
  let hours := hoursOf elapsed in
  let minutes := minutesOf elapsed in
  let seconds := secondsOf elapsed in
  _ ← emit (Print (Strings.esc +:+ "[1;1H"));
  match getASCIITime hours minutes seconds with
  | None => mret Panicked
  | Some banner =>
      _ ← emit (Print (banner +:+ Strings.nl));
      if isPaused st then
        _ ← emit (Print (Strings.esc +:+ "[1;1H"));
        _ ← emit (Print (Strings.Join pausedText Strings.nl +:+ Strings.nl));
        mret Running
      else mret Running
  end.

(** The two loops of [RunTimer], interleaved as the schedule [inputs]
    says; each turn of either loop is taken as one step. [Running] at the
    end of the schedule means both goroutines are waiting. *)
Fixpoint runLoops (fd : Z) (oldState : Termios) (inputs : list Input)
    (st : TimerState) : Prog (TimerState * Status) :=
  match inputs with
  | [] => mret (st, Running)
  | Key b now :: rest =>
      '(st, status) ← watcherStep fd oldState (Some b) now st;
      match status with
      | Running => runLoops fd oldState rest st
      | _ => mret (st, status)
      end
  | ReadError now :: rest =>
      '(st, status) ← watcherStep fd oldState None now st;
      match status with
      | Running => runLoops fd oldState rest st
      | _ => mret (st, status)
      end
  | Tick now :: rest =>
      status ← tickStep now st;
      match status with
      | Running => runLoops fd oldState rest st
      | _ => mret (st, status)
      end
  | Signal :: _ =>
      _ ← clearScreen;
      mret (st, Returned)
  end.

(** The state [RunTimer] sets up before it starts the watcher;
    [t0] is its reading of [time.Now()]. *)
Definition initialTimer (t0 : Z) : TimerState :=
  mkTimer false (MonoTime t0) 0 ZeroTime 0.

(** [RunTimer], started when the clock reads [t0] and run on the schedule
    [inputs]. The deferred calls run, last first, when the function
    returns or panics; [os.Exit] runs none. *)
Definition RunTimer (t0 : Z) (inputs : list Input) : Prog Status :=
  let fd := 0 in
  r ← makeRaw fd;
  match r with
  | Err errno =>
      _ ← emit (PrintfError errno);
      mret Returned
  | Ok oldState =>
      _ ← emit Notify;
      let st := initialTimer t0 in
      _ ← emit GoWatcher;
      _ ← clearScreen;
      _ ← emit (Print (Strings.esc +:+ "[?25l"));
      _ ← emit NewTicker;
      '(_, status) ← runLoops fd oldState inputs st;
      match status with
      | Returned | Panicked =>
          _ ← emit (Print (Strings.esc +:+ "[?25h"));
          _ ← restoreTerminal fd oldState;
          mret status
      | _ => mret status
      end
  end.

(** The world at process start: terminal settings [term], the errno of
    each coming [ioctl], and nothing logged yet. *)
Definition boot (term : Termios) (errnos : list Z) : World :=
  mkWorld term errnos [].

(** The timer state after the watcher has read the byte [k.1] when the
    clock read [k.2], for each [k] of [keys] in turn. *)
Definition replayKeys (keys : list (Z * Z)) (st : TimerState) : TimerState :=
  foldl (fun st k => pauseLogic k.2 (setBuf k.1 st)) st keys.

(** ** The notions the properties are stated with *)

Definition chars (s : string) : list ascii := list_ascii_of_string s.

Definition isDigit (c : ascii) : bool :=
  (48 <=? Strings.byteVal c) && (Strings.byteVal c <=? 57).

Definition isColon (c : ascii) : bool := Strings.byteVal c =? 58.

(** The index [int(char - '0')] that [getASCIITime] computes. *)
Definition glyphIndex (c : ascii) : Z := Strings.byteVal c - 48.

(** The glyph table as a lookup: row [row] of the glyph of [c]. *)
Definition glyphRow (row : nat) (c : ascii) : option string :=
  if isColon c then colon !! row
  else if isDigit c then digits !! Z.to_nat (glyphIndex c) ≫= (.!! row)
  else None.

(** A line as the specification words it: the glyph rows of the
    characters, with a single space column between neighbours. *)
Definition separatedLine (row : nat) (timeStr : string) : option string :=
  cells ← mapM (glyphRow row) (chars timeStr);
  Some (Strings.Join cells " ").

(** A line as the program builds it: the glyph row of every character,
    each followed by a space column. *)
Definition followed (cells : list string) : string :=
  foldr (fun g acc => (g +:+ " ") +:+ acc) "" cells.

Definition followedLine (row : nat) (timeStr : string) : option string :=
  cells ← mapM (glyphRow row) (chars timeStr);
  Some (followed cells).

(** The characters a time of day is written with. *)
Definition isTimeChar (c : ascii) : bool := isDigit c || isColon c.

(** Columns a character takes on a line: five for a digit and one for
    the colon, and the space column after it. *)
Definition cellWidth (c : ascii) : nat := if isColon c then 2 else 6.

Definition lineWidth (timeStr : string) : nat :=
  foldr (fun c n => (cellWidth c + n)%nat) 0%nat (chars timeStr).

(** What holds of line [l] of row [row] of the banner of [timeStr]: it is
    the glyph rows each followed by a space, that is the separated line
    and one more space; it has no line break; and it is as wide as the
    characters of [timeStr] ask. *)
Definition rendered (timeStr : string) (row : nat) (l : string) : Prop :=
  followedLine row timeStr = Some l
  /\ (exists sl, separatedLine row timeStr = Some sl /\ l = sl +:+ " ")
  /\ Strings.oneLine l = true
  /\ Strings.runeCount l = lineWidth timeStr.

(** The number a text of decimal digits denotes. *)
Definition decimalValue (s : string) : Z :=
  foldl (fun acc c => 10 * acc + glyphIndex c) 0 (chars s).

(** The completed pause intervals of a sequence of toggle instants: the
    first toggle pauses, the next resumes, and so on; a last pause without
    its resume is not completed. *)
Fixpoint pauseIntervals (ts : list Z) : list (Z * Z) :=
  match ts with
  | p :: r :: rest => (p, r) :: pauseIntervals rest
  | _ => []
  end.

(** The sum of (resume - pause) over the intervals. *)
Definition totalPaused (intervals : list (Z * Z)) : Z :=
  foldr (fun pr acc => (pr.2 - pr.1) + acc) 0 intervals.

(** Elapsed time as the specification defines it, for a timer started at
    [start], with [accumulated] spent in completed pauses and, when
    [paused] is an instant, a pause in progress since then. *)
Definition elapsedSpec (now start accumulated : Z) (paused : option Z) : Z :=
  now - start - accumulated
  - match paused with Some since => now - since | None => 0 end.

(** The instant at which the pause in progress began, if there is one. *)
Definition pauseInProgress (st : TimerState) : option Z :=
  if isPaused st then
    match pauseStart st with MonoTime p => Some p | ZeroTime => None end
  else None.

(** A program step only adds to the log. *)
Definition appends {A : Type} (p : Prog A) : Prop :=
  forall w, exists evs, log (p w).2 = log w ++ evs.

(** Monotonic-clock readings of one run: each an [int64] that is not
    negative, none earlier than the one before. *)
Fixpoint clockOrdered (from : Z) (ts : list Z) : Prop :=
  match ts with
  | [] => from < 2 ^ 63
  | t :: rest => from <= t /\ clockOrdered t rest
  end.

(** The pieces of [s] between the bytes [sep]. *)
Fixpoint splitOn (sep : Z) (s : string) : list string :=
  match s with
  | EmptyString => [""]
  | String c rest =>
      if Strings.byteVal c =? sep then "" :: splitOn sep rest
      else match splitOn sep rest with
           | l :: ls => String c l :: ls
           | [] => [String c ""]
           end
  end.

(** The byte [sep] does not occur in [s]. *)
Fixpoint freeOf (sep : Z) (s : string) : bool :=
  match s with
  | EmptyString => true
  | String c rest => negb (Strings.byteVal c =? sep) && freeOf sep rest
  end.

(** The bytes that toggle the pause: 'p' and 'P'. *)
Definition isToggle (b : Z) : bool := (b =? 112) || (b =? 80).

(** The clock readings at which toggle keys were read, in order. *)
Definition toggleTimes (keys : list (Z * Z)) : list Z :=
  (filter (fun k => isToggle k.1 = true) keys).*2.

(** Terminal settings whose fields fit their Go types. *)
Definition wfTermios (t : Termios) : Prop :=
  0 <= Iflag t < 2 ^ 32 /\ 0 <= Oflag t < 2 ^ 32 /\ 0 <= Cflag t < 2 ^ 32
  /\ 0 <= Lflag t < 2 ^ 32 /\ 0 <= Line t < 2 ^ 8
  /\ length (Cc t) = 19%nat /\ Forall (fun c => 0 <= c < 2 ^ 8) (Cc t)
  /\ 0 <= Ispeed t < 2 ^ 32 /\ 0 <= Ospeed t < 2 ^ 32.

(** The escape sequences that hide and show the cursor. *)
Definition hideCursor : string := Strings.esc +:+ "[?25l".
Definition showCursor : string := Strings.esc +:+ "[?25h".

(** What a turn of the main loop draws: printed text, none of it the
    sequence that shows the cursor. *)
Definition frameEvent (e : Event) : bool :=
  match e with
  | Print text => negb (String.eqb text showCursor)
  | _ => false
  end.

(** The log of a startup that succeeded, for the snapshot [term]. *)
Definition startupLog (term : Termios) : list Event :=
  [ Ioctl 0 TCGETS zeroTermios 0;
    Ioctl 0 TCSETS (rawSettings term) 0;
    Notify; GoWatcher;
    Print (Strings.esc +:+ "[H" +:+ Strings.esc +:+ "[2J");
    Print hideCursor;
    NewTicker ].

(** How the two loops, started in the world [w], can have ended in the
    world [w'] with status [status]: they have drawn frames and nothing
    else, left the terminal and the coming errnos alone, and at the end
    have either not ended (or panicked), or cleared the screen on a
    signal, or restored the terminal and exited with code 0. *)
Definition loopsEnd (fd : Z) (oldState : Termios) (w : World)
    (status : Status) (w' : World) : Prop :=
  exists mid,
    Forall (fun e => frameEvent e = true) mid
    /\ match status with
       | Running | Panicked =>
           w' = mkWorld (tty w) (faults w) (log w ++ mid)
       | Returned =>
           w' = mkWorld (tty w) (faults w)
                  (log w ++ mid
                   ++ [Print (Strings.esc +:+ "[H" +:+ Strings.esc +:+ "[2J")])
       | Exited code =>
           code = 0
           /\ w' = mkWorld
                     (if nextErrno (faults w) =? 0 then oldState else tty w)
                     (tail (faults w))
                     (log w ++ mid
                      ++ [Ioctl fd TCSETS oldState (nextErrno (faults w));
                          Exit 0])
       end.

(** How a run of [RunTimer] whose startup succeeded can stand, with
    snapshot [term] and [rest] the errnos left after startup: the log is
    the startup, then frames, then the events of the way it ended; the
    terminal is in raw mode while the program runs and after a restoring
    call that failed, and has the snapshot's settings after one that
    succeeded. *)
Definition runEnd (term : Termios) (rest : list Z)
    (status : Status) (w' : World) : Prop :=
  let restore := Ioctl 0 TCSETS term (nextErrno rest) in
  let after := if nextErrno rest =? 0 then term else rawSettings term in
  exists mid,
    Forall (fun e => frameEvent e = true) mid
    /\ match status with
       | Running =>
           w' = mkWorld (rawSettings term) rest (startupLog term ++ mid)
       | Returned =>
           w' = mkWorld after (tail rest)
                  (startupLog term ++ mid
                   ++ [Print (Strings.esc +:+ "[H" +:+ Strings.esc +:+ "[2J");
                       Print showCursor; restore])
       | Panicked =>
           w' = mkWorld after (tail rest)
                  (startupLog term ++ mid ++ [Print showCursor; restore])
       | Exited code =>
           code = 0
           /\ w' = mkWorld after (tail rest)
                     (startupLog term ++ mid ++ [restore; Exit 0])
       end.

(** * Properties *)

(** ** Byte strings *)

Section StringFacts.
Import Strings.

Lemma app_cons (c : ascii) (s t : string) :
  String c s +:+ t = String c (s +:+ t).
Proof. reflexivity. Qed.

Lemma app_nil_r (s : string) : s +:+ "" = s.
Proof.
  induction s as [|c s IH]; [done |]. by rewrite app_cons, IH.
Qed.

Lemma app_assoc (a b c : string) : (a +:+ b) +:+ c = a +:+ (b +:+ c).
Proof.
  induction a as [|x a IH]; [done |]. by rewrite !app_cons, IH.
Qed.

Lemma chars_app (a b : string) : chars (a +:+ b) = chars a ++ chars b.
Proof.
  induction a as [|x a IH]; [done |]. rewrite app_cons. simpl.
  by rewrite <- IH.
Qed.

Lemma length_app (a b : string) :
  String.length (a +:+ b) = (String.length a + String.length b)%nat.
Proof.
  induction a as [|x a IH]; [done |]. rewrite app_cons. simpl.
  by rewrite IH.
Qed.

Lemma length_chars (s : string) : length (chars s) = String.length s.
Proof. induction s as [|x s IH]; simpl; [done | by rewrite IH]. Qed.

Lemma runeCount_app (a b : string) :
  runeCount (a +:+ b) = (runeCount a + runeCount b)%nat.
Proof.
  induction a as [|x a IH]; [done |]. rewrite app_cons. simpl.
  destruct (isContinuation x); lia.
Qed.

Lemma oneLine_app (a b : string) :
  oneLine (a +:+ b) = oneLine a && oneLine b.
Proof.
  induction a as [|x a IH]; [done |]. rewrite app_cons. simpl.
  rewrite IH. by rewrite andb_assoc.
Qed.

(** A text without line break is its own single line, also in front of
    a line break. *)
Lemma lines_oneLine (l : string) :
  oneLine l = true -> lines l = [l].
Proof.
  induction l as [|c l IH]; simpl; [done |].
  intros [Hc Hl]%andb_prop. apply negb_true_iff in Hc. rewrite Hc.
  by rewrite (IH Hl).
Qed.

Lemma lines_oneLine_nl (l rest : string) :
  oneLine l = true -> lines (l +:+ nl +:+ rest) = l :: lines rest.
Proof.
  induction l as [|c l IH]; [done |]. rewrite app_cons. simpl.
  intros [Hc Hl]%andb_prop. apply negb_true_iff in Hc. rewrite Hc.
  by rewrite (IH Hl).
Qed.

(** Splitting what [Join] joined gives the pieces back. *)
Lemma lines_Join (rows : list string) :
  rows <> [] -> Forall (fun l => oneLine l = true) rows ->
  lines (Join rows nl) = rows.
Proof.
  induction rows as [|l rows IH]; [done |].
  intros _ Hall. inversion Hall as [|? ? Hl Hrows]; subst.
  destruct rows as [|l' rows'].
  - simpl. by apply lines_oneLine.
  - change (Join (l :: l' :: rows') nl)
      with (l +:+ nl +:+ Join (l' :: rows') nl).
    rewrite lines_oneLine_nl by done. f_equal. by apply IH.
Qed.

(** [Join] with a separator, followed by one more separator, is every
    piece followed by the separator. *)
Lemma Join_trailing (cells : list string) (sep : string) :
  cells <> [] ->
  Join cells sep +:+ sep = foldr (fun c acc => (c +:+ sep) +:+ acc) "" cells.
Proof.
  induction cells as [|c cells IH]; [done |].
  intros _. destruct cells as [|c' cells'].
  - simpl. by rewrite app_nil_r.
  - change (Join (c :: c' :: cells') sep)
      with (c +:+ sep +:+ Join (c' :: cells') sep).
    rewrite !app_assoc, IH by done.
    change (foldr _ "" (c :: c' :: cells'))
      with ((c +:+ sep) +:+ foldr (fun c acc => (c +:+ sep) +:+ acc) ""
                                  (c' :: cells')).
    by rewrite !app_assoc.
Qed.

End StringFacts.

(** ** Formatting *)

Section FmtFacts.
Import Strings Fmt.

(** The ten digit characters. *)
Lemma isDigit_digitByte (d : Z) : 0 <= d <= 9 -> isDigit (digitByte d) = true.
Proof.
  intros Hd.
  assert (Hc : d = 0 \/ d = 1 \/ d = 2 \/ d = 3 \/ d = 4 \/ d = 5 \/ d = 6
               \/ d = 7 \/ d = 8 \/ d = 9) by lia.
  by repeat (destruct Hc as [-> | Hc]; [done |]); subst.
Qed.

Lemma glyphIndex_digitByte (d : Z) : 0 <= d <= 9 -> glyphIndex (digitByte d) = d.
Proof.
  intros Hd.
  assert (Hc : d = 0 \/ d = 1 \/ d = 2 \/ d = 3 \/ d = 4 \/ d = 5 \/ d = 6
               \/ d = 7 \/ d = 8 \/ d = 9) by lia.
  by repeat (destruct Hc as [-> | Hc]; [done |]); subst.
Qed.

(** The two cases of the digit loop. *)
Lemma fmtDecimal_small (u : Z) (buf : string) :
  u < 10 -> fmtDecimal u buf = String (digitByte u) buf.
Proof.
  intros Hu. rewrite fmtDecimal_equation_1.
  destruct (Z_lt_dec u 10); [done | lia].
Qed.

Lemma fmtDecimal_step (u : Z) (buf : string) :
  10 <= u ->
  fmtDecimal u buf
  = fmtDecimal (u / 10) (String (digitByte (u - u / 10 * 10)) buf).
Proof.
  intros Hu. rewrite fmtDecimal_equation_1.
  destruct (Z_lt_dec u 10); [lia | done].
Qed.

(** Induction along the digit loop. *)
Lemma digit_loop_ind (P : Z -> Prop) :
  (forall u, 0 <= u < 10 -> P u) ->
  (forall u, 10 <= u -> P (u / 10) -> P u) ->
  forall u, 0 <= u -> P u.
Proof.
  intros Hsmall Hstep u Hu.
  enough (Hall : 0 <= u -> P u) by auto. pattern u.
  apply Z_lt_induction; [| done].
  intros n IH Hn. destruct (Z_lt_dec n 10) as [Hlt | Hge].
  - apply Hsmall. lia.
  - assert (0 <= n / 10 < n)
      by (split; [apply Z.div_pos; lia | apply Z.div_lt; lia]).
    apply Hstep; [lia |]. apply IH; lia.
Qed.

(** The loop writes in front of what the buffer holds. *)
Lemma fmtDecimal_buf (u : Z) :
  0 <= u -> forall buf, fmtDecimal u buf = fmtDecimal u "" +:+ buf.
Proof.
  intros Hu. pattern u. apply digit_loop_ind; [| | done]; clear u Hu.
  - intros u Hu buf. by rewrite !fmtDecimal_small by lia.
  - intros u Hu IH buf.
    rewrite (fmtDecimal_step u buf), (fmtDecimal_step u "") by done.
    rewrite (IH (String _ buf)), (IH (String _ "")).
    by rewrite app_assoc.
Qed.

Lemma fmtDecimal_snoc (u : Z) :
  10 <= u ->
  fmtDecimal u ""
  = fmtDecimal (u / 10) "" +:+ String (digitByte (u mod 10)) "".
Proof.
  intros Hu. rewrite fmtDecimal_step by done.
  rewrite fmtDecimal_buf by (apply Z.div_pos; lia).
  do 3 f_equal. rewrite Z.mod_eq by lia. lia.
Qed.

(** Only digits are written. *)
Lemma fmtDecimal_digits (u : Z) :
  0 <= u -> Forall (fun c => isDigit c = true) (chars (fmtDecimal u "")).
Proof.
  intros Hu. pattern u. apply digit_loop_ind; [| | done]; clear u Hu.
  - intros u Hu. rewrite fmtDecimal_small by lia. simpl.
    constructor; [| constructor]. apply isDigit_digitByte. lia.
  - intros u Hu IH. rewrite fmtDecimal_snoc, chars_app by done.
    apply Forall_app. split; [done |]. simpl.
    constructor; [| constructor]. apply isDigit_digitByte.
    pose proof (Z.mod_pos_bound u 10). lia.
Qed.

(** The digits written denote the number. *)
Lemma decimalValue_snoc (s : string) (c : ascii) :
  decimalValue (s +:+ String c "") = 10 * decimalValue s + glyphIndex c.
Proof. unfold decimalValue. by rewrite chars_app, foldl_app. Qed.

Lemma decimalValue_fmtDecimal (u : Z) :
  0 <= u -> decimalValue (fmtDecimal u "") = u.
Proof.
  intros Hu. pattern u. apply digit_loop_ind; [| | done]; clear u Hu.
  - intros u Hu. rewrite fmtDecimal_small by lia.
    unfold decimalValue. simpl. rewrite glyphIndex_digitByte; lia.
  - intros u Hu IH. rewrite fmtDecimal_snoc, decimalValue_snoc, IH by done.
    pose proof (Z.mod_pos_bound u 10).
    rewrite glyphIndex_digitByte by lia.
    rewrite (Z.div_mod u 10) at 3 by lia. lia.
Qed.

(** The number of digits written. *)
Lemma fmtDecimal_length_1 (u : Z) :
  0 <= u < 10 -> String.length (fmtDecimal u "") = 1%nat.
Proof. intros Hu. by rewrite fmtDecimal_small by lia. Qed.

Lemma fmtDecimal_length_2 (u : Z) :
  10 <= u < 100 -> String.length (fmtDecimal u "") = 2%nat.
Proof.
  intros Hu. rewrite fmtDecimal_snoc, length_app by lia.
  rewrite fmtDecimal_length_1; [done |].
  split; [apply Z.div_pos; lia | apply Z.div_lt_upper_bound; lia].
Qed.

Lemma fmtDecimal_length_ge_1 (u : Z) :
  0 <= u -> (1 <= String.length (fmtDecimal u ""))%nat.
Proof.
  intros Hu. destruct (Z_lt_dec u 10).
  - rewrite fmtDecimal_length_1; lia.
  - rewrite fmtDecimal_snoc, length_app by lia. simpl. lia.
Qed.

Lemma fmtDecimal_length_ge_2 (u : Z) :
  10 <= u -> (2 <= String.length (fmtDecimal u ""))%nat.
Proof.
  intros Hu. rewrite fmtDecimal_snoc, length_app by lia. simpl.
  assert (0 <= u / 10) by (apply Z.div_pos; lia).
  pose proof (fmtDecimal_length_ge_1 (u / 10)). lia.
Qed.

Lemma fmtDecimal_length_ge_3 (u : Z) :
  100 <= u -> (3 <= String.length (fmtDecimal u ""))%nat.
Proof.
  intros Hu. rewrite fmtDecimal_snoc, length_app by lia. simpl.
  assert (10 <= u / 10) by (apply Z.div_le_lower_bound; lia).
  pose proof (fmtDecimal_length_ge_2 (u / 10)). lia.
Qed.

(** No leading zero from the loop, except for the number zero. *)
Lemma fmtDecimal_head (u : Z) :
  1 <= u -> exists d rest, 1 <= d <= 9 /\ fmtDecimal u "" = String (digitByte d) rest.
Proof.
  intros Hu. assert (H0 : 0 <= u) by lia. revert Hu. pattern u.
  apply digit_loop_ind; [| | done]; clear u H0.
  - intros u Hu H1. exists u, "". split; [lia |].
    by rewrite fmtDecimal_small by lia.
  - intros u Hu IH _. rewrite fmtDecimal_snoc by done.
    destruct IH as (d & rest & Hd & ->).
    { apply Z.div_le_lower_bound; lia. }
    exists d, (rest +:+ String (digitByte (u mod 10)) ""). done.
Qed.

(** [%02d] of a number that is not negative: the digits of the number,
    with one zero in front when there is a single digit. *)
Lemma fmtInteger_one_digit (n : Z) :
  0 <= n < 10 -> fmtInteger n 2 = String "0" (String (digitByte n) "").
Proof.
  intros Hn. unfold fmtInteger.
  destruct (Z.ltb_spec n 0); [lia |].
  unfold padZeros. by rewrite fmtDecimal_small by lia.
Qed.

Lemma fmtInteger_natural (n : Z) :
  10 <= n -> fmtInteger n 2 = fmtDecimal n "".
Proof.
  intros Hn. unfold fmtInteger.
  destruct (Z.ltb_spec n 0); [lia |].
  unfold padZeros. pose proof (fmtDecimal_length_ge_2 n Hn).
  replace (Z.to_nat _) with 0%nat by lia. done.
Qed.

Lemma fmtInteger_digits (n : Z) :
  0 <= n -> Forall (fun c => isDigit c = true) (chars (fmtInteger n 2)).
Proof.
  intros Hn. destruct (Z_lt_dec n 10).
  - rewrite fmtInteger_one_digit by lia. simpl.
    repeat constructor. apply isDigit_digitByte. lia.
  - rewrite fmtInteger_natural by lia. by apply fmtDecimal_digits.
Qed.

Lemma fmtInteger_length_2 (n : Z) :
  0 <= n <= 59 -> String.length (fmtInteger n 2) = 2%nat.
Proof.
  intros Hn. destruct (Z_lt_dec n 10).
  - by rewrite fmtInteger_one_digit by lia.
  - rewrite fmtInteger_natural by lia. apply fmtDecimal_length_2. lia.
Qed.

(** A negative number is written with its sign in front. *)
Lemma fmtInteger_negative (n : Z) :
  n < 0 -> exists rest, fmtInteger n 2 = String "-" rest.
Proof.
  intros Hn. unfold fmtInteger.
  destruct (Z.ltb_spec n 0); [| lia]. eauto.
Qed.

(** Whatever the numbers, the formatted text is plain ASCII: ranging over
    its characters is ranging over its bytes. *)
Lemma padZeros_ascii (prec : Z) (buf : string) :
  Forall (fun c => byteVal c < 128) (chars buf) ->
  Forall (fun c => byteVal c < 128) (chars (padZeros prec buf)).
Proof.
  intros Hbuf. unfold padZeros. rewrite chars_app.
  apply Forall_app. split; [| done].
  induction (Z.to_nat _) as [|n IH]; [constructor |].
  change (replicate (S n) "0"%string) with ("0"%string :: replicate n "0"%string).
  destruct n as [|n]; [by repeat constructor |].
  change (String.concat "" ("0"%string :: replicate (S n) "0"%string))
    with ("0" +:+ "" +:+ String.concat "" (replicate (S n) "0"%string)).
  rewrite !chars_app. repeat (apply Forall_app; split); try done.
  by repeat constructor.
Qed.

Lemma fmtInteger_ascii (n wid : Z) :
  Forall (fun c => byteVal c < 128) (chars (fmtInteger n wid)).
Proof.
  assert (Hd : forall u, 0 <= u ->
            Forall (fun c => byteVal c < 128) (chars (fmtDecimal u ""))).
  { intros u Hu. eapply Forall_impl; [by apply fmtDecimal_digits |].
    intros c Hc. unfold isDigit in Hc. simpl in Hc. lia. }
  unfold fmtInteger. destruct (Z.ltb_spec n 0).
  - change (chars (String "-" ?s)) with ("-"%char :: chars s).
    constructor; [done |]. apply padZeros_ascii, Hd. lia.
  - apply padZeros_ascii, Hd. lia.
Qed.

Lemma Sprintf_ascii (h m s : Z) :
  Forall (fun c => byteVal c < 128) (chars (Sprintf_02d_02d_02d h m s)).
Proof.
  unfold Sprintf_02d_02d_02d. rewrite !chars_app.
  repeat (apply Forall_app; split);
    first [apply fmtInteger_ascii | by repeat constructor].
Qed.

End FmtFacts.

(** ** The renderer *)

Section RenderFacts.
Import Strings Fmt.

(** The glyph tables, entry by entry: on each of the five rows every
    time character has a glyph row, which the loop body appends with a
    space; the row has no line break and the width of its character. *)
Lemma glyph_table (row : nat) (c : ascii) :
  (row < 5)%nat -> isTimeChar c = true ->
  exists g, glyphRow row c = Some g
         /\ glyphCell row c = Some (g +:+ " ")
         /\ oneLine (g +:+ " ") = true
         /\ runeCount (g +:+ " ") = cellWidth c.
Proof.
  intros Hrow Hc.
  assert (Hr : row = 0%nat \/ row = 1%nat \/ row = 2%nat \/ row = 3%nat
               \/ row = 4%nat) by lia.
  clear Hrow. destruct Hr as [-> | [-> | [-> | [-> | ->]]]];
    destruct c as [[] [] [] [] [] [] [] []];
    try discriminate Hc;
    (eexists; split; [reflexivity | by vm_compute]).
Qed.

(** One line: the loop over the characters succeeds on a text of time
    characters and appends every glyph row followed by a space. *)
Lemma renderLine_followed (row : nat) (timeStr : string) :
  (row < 5)%nat ->
  Forall (fun c => isTimeChar c = true) (chars timeStr) ->
  exists cells,
    mapM (glyphRow row) (chars timeStr) = Some cells
    /\ length cells = String.length timeStr
    /\ (forall line, renderLine row timeStr line = Some (line +:+ followed cells))
    /\ oneLine (followed cells) = true
    /\ runeCount (followed cells) = lineWidth timeStr.
Proof.
  intros Hrow. induction timeStr as [|c rest IH]; intros Hall.
  - exists []. repeat split; try done. intros line. simpl.
    by rewrite app_nil_r.
  - change (chars (String c rest)) with (c :: chars rest) in *.
    inversion Hall as [|? ? Hc Hrest]; subst.
    destruct (IH Hrest) as (cells & Hmap & Hlen & Hrender & Hone & Hwidth).
    destruct (glyph_table row c Hrow Hc) as (g & Hg & Hcell & Hgone & Hgw).
    exists (g :: cells). repeat split.
    + simpl. rewrite Hg. simpl. rewrite Hmap. done.
    + simpl. by rewrite Hlen.
    + intros line. simpl. rewrite Hcell. simpl. rewrite Hrender.
      change (followed (g :: cells)) with ((g +:+ " ") +:+ followed cells).
      by rewrite app_assoc.
    + change (followed (g :: cells)) with ((g +:+ " ") +:+ followed cells).
      by rewrite oneLine_app, Hgone, Hone.
    + change (followed (g :: cells)) with ((g +:+ " ") +:+ followed cells).
      rewrite runeCount_app, Hgw, Hwidth. done.
Qed.

Lemma renderLine_rendered (row : nat) (timeStr : string) :
  (row < 5)%nat -> timeStr <> "" ->
  Forall (fun c => isTimeChar c = true) (chars timeStr) ->
  exists l, renderLine row timeStr "" = Some l /\ rendered timeStr row l.
Proof.
  intros Hrow Hne Hall.
  destruct (renderLine_followed row timeStr Hrow Hall)
    as (cells & Hmap & Hlen & Hrender & Hone & Hwidth).
  exists (followed cells). split; [by rewrite Hrender |].
  unfold rendered, followedLine, separatedLine. rewrite Hmap. simpl.
  repeat split; try done.
  exists (Join cells " "). split; [done |].
  unfold followed. rewrite Join_trailing; [done |].
  intros ->. destruct timeStr; [done | discriminate Hlen].
Qed.

(** The loop over the rows. *)
Lemma renderRows_rendered (timeStr : string) (rows : list nat) :
  timeStr <> "" ->
  Forall (fun c => isTimeChar c = true) (chars timeStr) ->
  Forall (fun row => (row < 5)%nat) rows ->
  forall result, exists ls,
    renderRows rows timeStr result = Some (result ++ ls)
    /\ Forall2 (rendered timeStr) rows ls.
Proof.
  intros Hne Hall. induction rows as [|row rows IH]; intros Hrows result.
  - exists []. split; [by rewrite List.app_nil_r | constructor].
  - inversion Hrows as [|? ? Hrow Hrows']; subst.
    destruct (renderLine_rendered row timeStr Hrow Hne Hall) as (l & Hl & Hr).
    destruct (IH Hrows' (result ++ [l])) as (ls & Hls & Hall2).
    exists (l :: ls). split; [| by constructor].
    simpl. rewrite Hl. simpl. rewrite Hls. by rewrite <- List.app_assoc.
Qed.

(** The banner of a text of time characters: five lines, which are the
    lines of the text returned. *)
Lemma getASCIITime_rendered (h m s : Z) :
  Forall (fun c => isTimeChar c = true) (chars (Sprintf_02d_02d_02d h m s)) ->
  exists rows,
    getASCIITime h m s = Some (Join rows nl)
    /\ lines (Join rows nl) = rows
    /\ Forall2 (rendered (Sprintf_02d_02d_02d h m s)) (seq 0 5) rows.
Proof.
  intros Hall.
  assert (Hne : Sprintf_02d_02d_02d h m s <> "").
  { unfold Sprintf_02d_02d_02d. intros Heq.
    apply (f_equal String.length) in Heq. rewrite !length_app in Heq.
    simpl in Heq. lia. }
  destruct (renderRows_rendered _ (seq 0 5) Hne Hall) with (result := @nil string)
    as (rows & Hrows & Hall2).
  { repeat constructor. }
  exists rows. unfold getASCIITime. rewrite Hrows. simpl.
  split; [done |]. split; [| done].
  apply lines_Join.
  - intros ->. inversion Hall2.
  - clear Hrows. induction Hall2 as [|? ? ? ? Hr]; constructor; [| done].
    by destruct Hr as (_ & _ & ? & _).
Qed.

(** The text [Sprintf] hands to the loops, for numbers that are not
    negative, is made of digits and colons. *)
Lemma Sprintf_timeChars (h m s : Z) :
  0 <= h -> 0 <= m -> 0 <= s ->
  Forall (fun c => isTimeChar c = true) (chars (Sprintf_02d_02d_02d h m s)).
Proof.
  intros Hh Hm Hs. unfold Sprintf_02d_02d_02d. rewrite !chars_app.
  assert (Hd : forall n, 0 <= n ->
            Forall (fun c => isTimeChar c = true) (chars (fmtInteger n 2))).
  { intros n Hn. eapply Forall_impl; [by apply fmtInteger_digits |].
    intros c Hc. unfold isTimeChar. by rewrite Hc. }
  repeat (apply Forall_app; split); auto; by repeat constructor.
Qed.

End RenderFacts.

(** ** The renderer: claims *)

Section RenderClaims.
Import Strings Fmt.

(** C3, as stated, fails: the lines of the banner of 00:00:00 are not
    the glyph rows with a single space between neighbouring characters,
    since the program also puts a space after the last character. *)
Lemma C3_lines_are_not_separated :
  ~ (exists out,
       getASCIITime 0 0 0 = Some out
       /\ forall row l, lines out !! row = Some l ->
                        separatedLine row (Sprintf_02d_02d_02d 0 0 0) = Some l).
Proof.
  intros (out & Hout & Hrows).
  vm_compute in Hout. injection Hout as <-.
  specialize (Hrows 0%nat _ eq_refl). vm_compute in Hrows.
  discriminate Hrows.
Qed.

(** C3 (amended): for every valid triple (h >= 0, 0 <= m <= 59,
    0 <= s <= 59) the renderer returns a text of exactly 5 lines, the
    lines all have the same number of characters, and line [row] is the
    glyph row [row] of every character of the formatted text, each
    followed by one space column: the glyph rows separated by single
    spaces, and one more space at the end of the line. The rows are
    joined by line breaks. *)
Theorem C3_render_five_equal_lines (h m s : Z) :
  0 <= h -> 0 <= m <= 59 -> 0 <= s <= 59 ->
  exists out rows,
    getASCIITime h m s = Some out
    /\ out = Join rows nl
    /\ lines out = rows
    /\ length rows = 5%nat
    /\ (forall l1 l2, l1 ∈ rows -> l2 ∈ rows -> runeCount l1 = runeCount l2)
    /\ (forall row l, rows !! row = Some l ->
          followedLine row (Sprintf_02d_02d_02d h m s) = Some l
          /\ exists sl, separatedLine row (Sprintf_02d_02d_02d h m s) = Some sl
                     /\ l = sl +:+ " ").
Proof.
  intros Hh Hm Hs.
  destruct (getASCIITime_rendered h m s) as (rows & Hget & Hlines & Hall).
  { apply Sprintf_timeChars; lia. }
  exists (Join rows nl), rows.
  assert (Hlen : length rows = 5%nat).
  { apply Forall2_length in Hall. by rewrite <- Hall. }
  repeat split; try done.
  - assert (Hw : forall l, l ∈ rows ->
              runeCount l = lineWidth (Sprintf_02d_02d_02d h m s)).
    { intros l Hl. apply list_elem_of_lookup in Hl as [i Hi].
      destruct (Forall2_lookup_r _ _ _ _ _ Hall Hi) as (row & _ & Hr).
      by destruct Hr as (_ & _ & _ & ?). }
    intros l1 l2 H1 H2. by rewrite (Hw l1 H1), (Hw l2 H2).
  - destruct (Forall2_lookup_r _ _ _ _ _ Hall H) as (row' & Hrow' & Hr).
    apply lookup_seq in Hrow' as [-> _]. by destruct Hr as (? & _).
  - destruct (Forall2_lookup_r _ _ _ _ _ Hall H) as (row' & Hrow' & Hr).
    apply lookup_seq in Hrow' as [-> _]. by destruct Hr as (_ & ? & _).
Qed.

(** In bytes the lines differ in length, the block character being three
    bytes long in UTF-8; in characters they are 40 wide. *)
Example lines_of_010203 :
  (fun out => (map String.length (lines out), map runeCount (lines out)))
    <$> getASCIITime 1 2 3
  = Some ([92; 64; 74; 62; 100]%nat, [40; 40; 40; 40; 40]%nat).
Proof. by vm_compute. Qed.

Lemma C3_render_five_equal_lines_witness :
  exists out rows,
    getASCIITime 1 1 1 = Some out
    /\ out = Join rows nl
    /\ lines out = rows
    /\ length rows = 5%nat
    /\ (forall l1 l2, l1 ∈ rows -> l2 ∈ rows -> runeCount l1 = runeCount l2)
    /\ (forall row l, rows !! row = Some l ->
          followedLine row (Sprintf_02d_02d_02d 1 1 1) = Some l
          /\ exists sl, separatedLine row (Sprintf_02d_02d_02d 1 1 1) = Some sl
                     /\ l = sl +:+ " ").
Proof. apply (C3_render_five_equal_lines 1 1 1); lia. Defined.

(** C6: for hours >= 100 and valid minutes and seconds, the hours field
    of the formatted text is the decimal numeral of the hours at its
    natural width: three digits or more, no zero in front, denoting the
    hours; minutes and seconds take two characters each, and only a
    number below ten gets a zero in front. The text renders through
    the glyph table: five lines, each the glyph rows of its
    characters. *)
Theorem C6_hours_at_natural_width (h m s : Z) :
  100 <= h -> 0 <= m <= 59 -> 0 <= s <= 59 ->
  let hours := fmtInteger h 2 in
  Sprintf_02d_02d_02d h m s
  = hours +:+ ":" +:+ fmtInteger m 2 +:+ ":" +:+ fmtInteger s 2
  /\ hours = fmtDecimal h ""
  /\ (3 <= String.length hours)%nat
  /\ Forall (fun c => isDigit c = true) (chars hours)
  /\ decimalValue hours = h
  /\ (exists d rest, 1 <= d <= 9 /\ hours = String (digitByte d) rest)
  /\ String.length (fmtInteger m 2) = 2%nat
  /\ String.length (fmtInteger s 2) = 2%nat
  /\ (forall k, 0 <= k < 10 ->
        fmtInteger k 2 = String "0" (String (digitByte k) ""))
  /\ exists rows,
       getASCIITime h m s = Some (Join rows nl)
       /\ lines (Join rows nl) = rows
       /\ Forall2 (rendered (Sprintf_02d_02d_02d h m s)) (seq 0 5) rows.
Proof.
  intros Hh Hm Hs hours. subst hours.
  split; [reflexivity |].
  rewrite (fmtInteger_natural h) by lia.
  split; [done |].
  split; [apply fmtDecimal_length_ge_3; lia |].
  split; [apply fmtDecimal_digits; lia |].
  split; [apply decimalValue_fmtDecimal; lia |].
  split; [apply fmtDecimal_head; lia |].
  split; [by apply fmtInteger_length_2 |].
  split; [by apply fmtInteger_length_2 |].
  split; [apply fmtInteger_one_digit |].
  apply getASCIITime_rendered, Sprintf_timeChars; lia.
Qed.

Lemma C6_hours_at_natural_width_witness :
  Sprintf_02d_02d_02d 123 4 5 = "123:04:05"
  /\ (3 <= String.length (fmtInteger 123 2))%nat
  /\ decimalValue (fmtInteger 123 2) = 123.
Proof.
  destruct (C6_hours_at_natural_width 123 4 5) as (_ & _ & Hlen & _ & Hval & _);
    [lia | lia | lia |].
  split; [reflexivity |]. split; [exact Hlen | exact Hval].
Defined.

(** C9: for h, m, s that are not negative, every character of the
    formatted text is a colon or a decimal digit, whose index
    char - '0' lies within the ten entries of the digit table, and the
    renderer returns without fault; for every h < 0 the text has a
    character that is no colon and whose index is out of the table's
    bounds, and the renderer panics. *)
Theorem C9_glyph_index_in_bounds (h m s : Z) :
  (0 <= h -> 0 <= m -> 0 <= s ->
     Forall (fun c => isColon c = true
                      \/ (isDigit c = true
                          /\ 0 <= glyphIndex c < Z.of_nat (length digits)))
            (chars (Sprintf_02d_02d_02d h m s))
     /\ is_Some (getASCIITime h m s))
  /\ (h < 0 ->
      (exists c, c ∈ chars (Sprintf_02d_02d_02d h m s)
                 /\ isColon c = false
                 /\ ~ (0 <= glyphIndex c < Z.of_nat (length digits)))
      /\ getASCIITime h m s = None).
Proof.
  split.
  - intros Hh Hm Hs. split.
    + eapply Forall_impl; [by apply Sprintf_timeChars |].
      intros c Hc. unfold isTimeChar in Hc.
      apply orb_prop in Hc as [Hd | Hcolon]; [right | by left].
      split; [done |]. unfold isDigit in Hd. unfold glyphIndex. simpl. lia.
    + destruct (getASCIITime_rendered h m s) as (rows & -> & _).
      { by apply Sprintf_timeChars. }
      done.
  - intros Hh. destruct (fmtInteger_negative h Hh) as (rest & Hrest).
    assert (Hstr : exists rest', Sprintf_02d_02d_02d h m s = String "-" rest').
    { unfold Sprintf_02d_02d_02d. rewrite Hrest, app_cons. eauto. }
    destruct Hstr as (rest' & Hstr). split.
    + exists "-"%char. rewrite Hstr. split; [by left |].
      split; [done |]. vm_compute. intros [H _]. by apply H.
    + unfold getASCIITime. rewrite Hstr. done.
Qed.

Lemma C9_glyph_index_in_bounds_witness :
  is_Some (getASCIITime 7 8 9) /\ getASCIITime (-1) 8 9 = None.
Proof.
  split.
  - apply (proj1 (C9_glyph_index_in_bounds 7 8 9)); lia.
  - apply (proj2 (C9_glyph_index_in_bounds (-1) 8 9)); lia.
Defined.

End RenderClaims.

(** ** The terminal mode controller *)

Section TerminalFacts.

(** The three ways [makeRaw] can go, by the errno of its two calls. *)
Lemma makeRaw_query_fails (fd : Z) (w : World) :
  nextErrno (faults w) <> 0 ->
  makeRaw fd w
  = (Err (nextErrno (faults w)),
     mkWorld (tty w) (tail (faults w))
       (log w ++ [Ioctl fd TCGETS zeroTermios (nextErrno (faults w))])).
Proof.
  intros He. unfold makeRaw, mbind, Prog_bind, ioctl.
  destruct (Z.eqb_spec (nextErrno (faults w)) 0) as [|_]; [done |].
  simpl. destruct (Z.eqb_spec (nextErrno (faults w)) 0); done.
Qed.

Lemma makeRaw_install_fails (fd : Z) (w : World) :
  nextErrno (faults w) = 0 ->
  nextErrno (tail (faults w)) <> 0 ->
  makeRaw fd w
  = (Err (nextErrno (tail (faults w))),
     mkWorld (tty w) (tail (tail (faults w)))
       (log w ++ [Ioctl fd TCGETS zeroTermios 0;
                  Ioctl fd TCSETS (rawSettings (tty w))
                    (nextErrno (tail (faults w)))])).
Proof.
  intros He1 He2. unfold makeRaw, mbind, Prog_bind, ioctl.
  rewrite He1. simpl.
  destruct (Z.eqb_spec (nextErrno (tail (faults w))) 0) as [|_]; [done |].
  simpl. destruct (Z.eqb_spec (nextErrno (tail (faults w))) 0); [done |].
  by rewrite <- List.app_assoc.
Qed.

Lemma makeRaw_succeeds (fd : Z) (w : World) :
  nextErrno (faults w) = 0 ->
  nextErrno (tail (faults w)) = 0 ->
  makeRaw fd w
  = (Ok (tty w),
     mkWorld (rawSettings (tty w)) (tail (tail (faults w)))
       (log w ++ [Ioctl fd TCGETS zeroTermios 0;
                  Ioctl fd TCSETS (rawSettings (tty w)) 0])).
Proof.
  intros He1 He2. unfold makeRaw, mbind, Prog_bind, ioctl.
  rewrite He1. simpl. rewrite He2. simpl.
  by rewrite <- List.app_assoc.
Qed.

(** The bits of the mask [ICANON | ECHO]. *)
Lemma raw_mask_bits (i : Z) :
  Z.testbit (Z.lor ICANON ECHO) i = (i =? 1) || (i =? 3).
Proof.
  change (Z.lor ICANON ECHO) with 10.
  destruct (Z_lt_dec i 0) as [Hneg | Hpos].
  - rewrite Z.testbit_neg_r by done.
    destruct (Z.eqb_spec i 1), (Z.eqb_spec i 3); lia.
  - destruct (Z_lt_dec i 4) as [Hlow | Hhigh].
    + assert (Hi : i = 0 \/ i = 1 \/ i = 2 \/ i = 3) by lia.
      by destruct Hi as [-> | [-> | [-> | ->]]].
    + rewrite Z.bits_above_log2 by (change (Z.log2 10) with 3; lia).
      destruct (Z.eqb_spec i 1), (Z.eqb_spec i 3); lia.
Qed.

(** [restoreTerminal] issues one [TCSETS] with the snapshot. *)
Lemma restoreTerminal_log (fd : Z) (oldState : Termios) (w : World) :
  log (restoreTerminal fd oldState w).2
  = log w ++ [Ioctl fd TCSETS oldState (nextErrno (faults w))].
Proof.
  unfold restoreTerminal, mbind, Prog_bind, ioctl.
  destruct (Z.eqb_spec (nextErrno (faults w)) 0) as [-> |]; done.
Qed.

End TerminalFacts.

(** ** The log only grows *)

Section LogFacts.

Lemma appends_ret {A : Type} (a : A) : appends (mret a).
Proof. intros w. exists []. by rewrite List.app_nil_r. Qed.

Lemma appends_bind {A B : Type} (m : Prog A) (f : A -> Prog B) :
  appends m -> (forall a, appends (f a)) -> appends (m ≫= f).
Proof.
  intros Hm Hf w. unfold mbind, Prog_bind.
  destruct (Hm w) as (evs1 & H1). destruct (m w) as [a w1].
  destruct (Hf a w1) as (evs2 & H2).
  exists (evs1 ++ evs2). simpl in *. by rewrite H2, H1, List.app_assoc.
Qed.

Lemma appends_emit (e : Event) : appends (emit e).
Proof. intros w. by exists [e]. Qed.

Lemma appends_ioctl (fd req : Z) (arg : Termios) : appends (ioctl fd req arg).
Proof.
  intros w. unfold ioctl.
  destruct (negb _); [by eexists |].
  destruct (req =? TCGETS); [by eexists |].
  destruct (req =? TCSETS); by eexists.
Qed.

Lemma appends_restoreTerminal (fd : Z) (oldState : Termios) :
  appends (restoreTerminal fd oldState).
Proof.
  apply appends_bind; [apply appends_ioctl |].
  intros [? ?]. apply appends_ret.
Qed.

Lemma appends_clearScreen : appends clearScreen.
Proof. apply appends_emit. Qed.

(** Goals of the form [appends p], by the structure of [p]. *)
Ltac appends_step :=
  first
    [ apply appends_ret | apply appends_emit | apply appends_clearScreen
    | apply appends_restoreTerminal | apply appends_ioctl
    | apply appends_bind; [| intros ?]
    | match goal with
      | |- appends (match ?x with _ => _ end) => destruct x
      | |- appends (if ?x then _ else _) => destruct x
      end ].

Lemma appends_quitLogic (fd : Z) (oldState : Termios) (st : TimerState) :
  appends (quitLogic fd oldState st).
Proof. unfold quitLogic. repeat appends_step. Qed.

Lemma appends_watcherStep (fd : Z) (oldState : Termios) (read : option Z)
    (now : Z) (st : TimerState) :
  appends (watcherStep fd oldState read now st).
Proof.
  unfold watcherStep. cbv zeta.
  apply appends_bind; [apply appends_quitLogic | intros ?; apply appends_ret].
Qed.

Lemma appends_tickStep (now : Z) (st : TimerState) : appends (tickStep now st).
Proof. unfold tickStep. cbv zeta. repeat appends_step. Qed.

Lemma appends_runLoops (fd : Z) (oldState : Termios) (inputs : list Input) :
  forall st, appends (runLoops fd oldState inputs st).
Proof.
  induction inputs as [|input rest IH]; intros st; [apply appends_ret |].
  destruct input; simpl.
  - apply appends_bind; [apply appends_watcherStep |].
    intros [st' []]; first [apply IH | apply appends_ret].
  - apply appends_bind; [apply appends_watcherStep |].
    intros [st' []]; first [apply IH | apply appends_ret].
  - apply appends_bind; [apply appends_tickStep |].
    intros []; first [apply IH | apply appends_ret].
  - repeat appends_step.
Qed.

(** What a first step logged is still in the log after what follows. *)
Lemma bind_keeps_log {A B : Type} (m : Prog A) (f : A -> Prog B)
    (w : World) (e : Event) :
  (forall a, appends (f a)) ->
  e ∈ log (m w).2 -> e ∈ log ((m ≫= f) w).2.
Proof.
  intros Hf Hin. unfold mbind, Prog_bind. destruct (m w) as [a w1].
  destruct (Hf a w1) as (evs & ->). apply elem_of_app. by left.
Qed.

(** Everything [RunTimer] does after [makeRaw] only adds to the log. *)
Lemma RunTimer_keeps_setup_log (t0 : Z) (inputs : list Input) (w : World)
    (e : Event) :
  e ∈ log (makeRaw 0 w).2 -> e ∈ log (RunTimer t0 inputs w).2.
Proof.
  unfold RunTimer. cbv zeta. apply bind_keeps_log.
  intros [oldState | errno]; [| repeat appends_step].
  do 5 (apply appends_bind; [repeat appends_step | intros ?]).
  apply appends_bind; [apply appends_runLoops |].
  intros [st status]. destruct status; repeat appends_step.
Qed.

End LogFacts.

Section TerminalClaims.

(** C10: the settings [makeRaw] applies differ from the snapshot only
    in the local-mode flags, where the bits ICANON (bit 1) and ECHO
    (bit 3) are cleared and every other bit is kept, and in the control
    characters, where VMIN is 1 and VTIME is 0 and every other entry is
    kept; input, output and control flags, line discipline and speeds
    equal the snapshot. These are the settings passed to the one
    [TCSETS] call, the snapshot is what [makeRaw] returns, and when the
    query [TCGETS] fails no [TCSETS] is attempted at all. *)
Theorem C10_makeRaw_frame (fd : Z) (term : Termios) (errnos : list Z) :
  length (Cc term) = 19%nat ->
  let applied := rawSettings term in
  let res := makeRaw fd (boot term errnos) in
  (Iflag applied = Iflag term /\ Oflag applied = Oflag term
   /\ Cflag applied = Cflag term /\ Line applied = Line term
   /\ Ispeed applied = Ispeed term /\ Ospeed applied = Ospeed term)
  /\ (Z.land (Lflag applied) ICANON = 0 /\ Z.land (Lflag applied) ECHO = 0
      /\ forall i, i <> 1 -> i <> 3 ->
           Z.testbit (Lflag applied) i = Z.testbit (Lflag term) i)
  /\ (Cc applied !! Z.to_nat VMIN = Some 1
      /\ Cc applied !! Z.to_nat VTIME = Some 0
      /\ length (Cc applied) = 19%nat
      /\ forall i, i <> Z.to_nat VMIN -> i <> Z.to_nat VTIME ->
           Cc applied !! i = Cc term !! i)
  /\ (nextErrno errnos = 0 ->
      log res.2 = [Ioctl fd TCGETS zeroTermios 0;
                   Ioctl fd TCSETS applied (nextErrno (tail errnos))]
      /\ (nextErrno (tail errnos) = 0 ->
          res.1 = Ok term /\ tty res.2 = applied))
  /\ (nextErrno errnos <> 0 ->
      log res.2 = [Ioctl fd TCGETS zeroTermios (nextErrno errnos)]
      /\ res.1 = Err (nextErrno errnos)
      /\ tty res.2 = term).
Proof.
  intros Hlen applied res. subst applied res.
  split; [done |]. split; [| split; [| split]].
  - assert (Hbit : forall i, Z.testbit (Lflag (rawSettings term)) i
              = Z.testbit (Lflag term) i && negb ((i =? 1) || (i =? 3))).
    { intros i. unfold rawSettings. simpl.
      by rewrite Z.ldiff_spec, raw_mask_bits. }
    repeat split.
    + apply Z.bits_inj'. intros i Hi.
      rewrite Z.land_spec, Hbit, Z.bits_0.
      change ICANON with (2 ^ 1). rewrite Z.pow2_bits_eqb by lia.
      destruct (Z.eqb_spec 1 i) as [<- |]; [| by rewrite andb_false_r].
      by rewrite andb_false_r.
    + apply Z.bits_inj'. intros i Hi.
      rewrite Z.land_spec, Hbit, Z.bits_0.
      change ECHO with (2 ^ 3). rewrite Z.pow2_bits_eqb by lia.
      destruct (Z.eqb_spec 3 i) as [<- |]; [| by rewrite andb_false_r].
      rewrite orb_true_r. by rewrite andb_false_r.
    + intros i H1 H3. rewrite Hbit.
      destruct (Z.eqb_spec i 1), (Z.eqb_spec i 3); try lia.
      by rewrite andb_true_r.
  - unfold rawSettings. simpl. repeat split.
    + rewrite list_lookup_insert_ne by (unfold VMIN, VTIME; lia).
      apply list_lookup_insert_eq. rewrite Hlen. unfold VMIN. lia.
    + apply list_lookup_insert_eq. rewrite length_insert, Hlen.
      unfold VTIME. lia.
    + by rewrite !length_insert.
    + intros i Hmin Htime. by rewrite !list_lookup_insert_ne.
  - intros He1.
    destruct (Z.eq_dec (nextErrno (tail errnos)) 0) as [He2 | He2].
    + rewrite makeRaw_succeeds by done. simpl. rewrite He2. done.
    + rewrite makeRaw_install_fails by done. simpl.
      split; [done | intros; lia].
  - intros He1. rewrite makeRaw_query_fails by done. done.
Qed.

Lemma C10_makeRaw_frame_witness :
  let term := mkTermios 0x500 0x5 0xbf 0x8a3b 0 (replicate 19 3) 15 15 in
  Lflag (rawSettings term) = 0x8a31
  /\ Cc (rawSettings term) !! 6%nat = Some 1
  /\ Cc (rawSettings term) !! 5%nat = Some 0
  /\ log (makeRaw 0 (boot term [5])).2 = [Ioctl 0 TCGETS zeroTermios 5].
Proof.
  intros term.
  destruct (C10_makeRaw_frame 0 term [5] eq_refl)
    as (_ & _ & (Hmin & Htime & _) & _ & Hfail).
  split; [reflexivity |]. split; [exact Hmin |]. split; [exact Htime |].
  apply Hfail. simpl. lia.
Defined.

(** C7: when the query or the mutation of the terminal settings at
    startup fails, [RunTimer] reports the error and returns: the log
    holds the system calls and the message and nothing else, so no
    watcher was launched, no ticker made and nothing drawn, and the
    terminal keeps its settings. And whenever the watcher was launched,
    a ticker made or anything drawn, [makeRaw] had succeeded and the raw
    settings were installed. *)
Theorem C7_startup_failure_aborts
    (t0 : Z) (inputs : list Input) (term : Termios) (errnos : list Z) :
  let run := RunTimer t0 inputs (boot term errnos) in
  let setup := makeRaw 0 (boot term errnos) in
  (nextErrno errnos <> 0
   \/ (nextErrno errnos = 0 /\ nextErrno (tail errnos) <> 0) ->
     exists errno,
       setup.1 = Err errno /\ errno <> 0
       /\ run.1 = Returned
       /\ log run.2 = log setup.2 ++ [PrintfError errno]
       /\ Forall (fun e => exists fd req arg no, e = Ioctl fd req arg no)
                 (log setup.2)
       /\ (GoWatcher ∉ log run.2) /\ (NewTicker ∉ log run.2)
       /\ (forall text, Print text ∉ log run.2)
       /\ tty run.2 = term)
  /\ (GoWatcher ∈ log run.2 \/ NewTicker ∈ log run.2
      \/ (exists text, Print text ∈ log run.2) ->
      setup.1 = Ok term
      /\ tty setup.2 = rawSettings term
      /\ Ioctl 0 TCSETS (rawSettings term) 0 ∈ log run.2).
Proof.
  intros run setup.
  assert (Hfail : nextErrno errnos <> 0
            \/ (nextErrno errnos = 0 /\ nextErrno (tail errnos) <> 0) ->
          exists errno evs,
            setup = (Err errno, mkWorld term (faults setup.2) evs)
            /\ errno <> 0
            /\ Forall (fun e => exists fd req arg no, e = Ioctl fd req arg no) evs
            /\ run = (Returned,
                      mkWorld term (faults setup.2) (evs ++ [PrintfError errno]))).
  { intros [He1 | [He1 He2]].
    - exists (nextErrno errnos), [Ioctl 0 TCGETS zeroTermios (nextErrno errnos)].
      subst run setup. unfold RunTimer, mbind, Prog_bind.
      rewrite makeRaw_query_fails by done. simpl.
      repeat split; try done. repeat constructor. eauto.
    - exists (nextErrno (tail errnos)),
        [Ioctl 0 TCGETS zeroTermios 0;
         Ioctl 0 TCSETS (rawSettings term) (nextErrno (tail errnos))].
      subst run setup. unfold RunTimer, mbind, Prog_bind.
      rewrite makeRaw_install_fails by done. simpl.
      repeat split; try done. repeat constructor; eauto. }
  assert (Hclean : forall evs errno (e : Event),
            Forall (fun e => exists fd req arg no, e = Ioctl fd req arg no) evs ->
            (forall fd req arg no, e <> Ioctl fd req arg no) ->
            e <> PrintfError errno ->
            e ∉ evs ++ [PrintfError errno]).
  { intros evs errno e Hevs Hio Hpr Hin.
    apply elem_of_app in Hin as [Hin | Hin].
    - rewrite Forall_forall in Hevs.
      destruct (Hevs e Hin) as (fd & req & arg & no & ->).
      by eapply Hio.
    - apply list_elem_of_singleton in Hin. done. }
  split.
  - intros Hcase.
    destruct (Hfail Hcase) as (errno & evs & Hsetup & Hne & Hevs & Hrun).
    exists errno. rewrite Hsetup, Hrun. simpl.
    do 5 (split; [done |]).
    split; [by apply Hclean |]. split; [by apply Hclean |].
    split; [intros text; by apply Hclean | done].
  - intros Hran.
    destruct (Z.eq_dec (nextErrno errnos) 0) as [He1 | He1];
      [destruct (Z.eq_dec (nextErrno (tail errnos)) 0) as [He2 | He2] |].
    + assert (Hsetup : setup
                = (Ok term,
                   mkWorld (rawSettings term) (tail (tail errnos))
                     [Ioctl 0 TCGETS zeroTermios 0;
                      Ioctl 0 TCSETS (rawSettings term) 0]))
        by (subst setup; by rewrite makeRaw_succeeds).
      rewrite Hsetup. simpl. repeat split.
      apply RunTimer_keeps_setup_log. fold setup. rewrite Hsetup. simpl.
      apply list_elem_of_In. simpl. auto.
    + destruct (Hfail (or_intror (conj He1 He2)))
        as (errno & evs & _ & _ & Hevs & Hrun).
      rewrite Hrun in Hran. simpl in Hran. exfalso.
      destruct Hran as [H | [H | [text H]]]; revert H; by apply Hclean.
    + destruct (Hfail (or_introl He1))
        as (errno & evs & _ & _ & Hevs & Hrun).
      rewrite Hrun in Hran. simpl in Hran. exfalso.
      destruct Hran as [H | [H | [text H]]]; revert H; by apply Hclean.
Qed.

Lemma C7_startup_failure_aborts_witness :
  let term := mkTermios 0x500 0x5 0xbf 0x8a3b 0 (replicate 19 3) 15 15 in
  (RunTimer 0 [Tick 1000000000; Key 113 1500000000] (boot term [0; 25])).1
  = Returned
  /\ (makeRaw 0 (boot term [])).1 = Ok term.
Proof.
  intros term. split.
  - destruct (proj1 (C7_startup_failure_aborts 0
                       [Tick 1000000000; Key 113 1500000000] term [0; 25]))
      as (errno & _ & _ & Hret & _); [right; simpl; lia | exact Hret].
  - apply (proj2 (C7_startup_failure_aborts 0 [] term [])).
    left. apply list_elem_of_In. simpl. auto.
Defined.

End TerminalClaims.

(** ** The input watcher and the timer loop *)

Section TimerFacts.
Import Duration.

Lemma wrap64_small (z : Z) : - 2 ^ 63 <= z < 2 ^ 63 -> wrap64 z = z.
Proof. intros Hz. unfold wrap64. rewrite Z.mod_small; lia. Qed.

(** Between readings of one run of the clock nothing saturates. *)
Lemma subMono_small (t u : Z) : 0 <= u <= t -> t < 2 ^ 63 -> subMono t u = t - u.
Proof.
  intros Hu Ht. unfold subMono. rewrite wrap64_small by lia.
  destruct (Z.ltb_spec (t - u) 0); [lia |]. simpl.
  destruct (Z.ltb_spec 0 (t - u)), (Z.ltb_spec t u); simpl; lia.
Qed.

(** Every reading of an ordered run is an [int64]. *)
Lemma clockOrdered_bound (ts : list Z) :
  forall from, clockOrdered from ts -> from < 2 ^ 63.
Proof.
  induction ts as [|t ts IH]; intros from Hc; [exact Hc |].
  destruct Hc as [Hle Hc]. specialize (IH _ Hc). lia.
Qed.

(** A toggle key on a running timer starts a pause. *)
Lemma toggle_pauses (b now : Z) (st : TimerState) :
  b = 112 \/ b = 80 -> isPaused st = false ->
  pauseLogic now (setBuf b st)
  = mkTimer true (startTime st) (pausedDuration st) (MonoTime now) b.
Proof.
  intros Hb Hrun. unfold pauseLogic, setBuf. simpl. rewrite Hrun. simpl.
  by destruct Hb as [-> | ->].
Qed.

(** A toggle key on a paused timer ends the pause and adds its length. *)
Lemma toggle_resumes (b now p : Z) (st : TimerState) :
  b = 112 \/ b = 80 -> isPaused st = true -> pauseStart st = MonoTime p ->
  pauseLogic now (setBuf b st)
  = mkTimer false (startTime st)
      (wrap64 (pausedDuration st + subMono now p)) (MonoTime p) b.
Proof.
  intros Hb Hp Hstart. unfold pauseLogic, setBuf. simpl.
  rewrite Hp, Hstart. simpl. by destruct Hb as [-> | ->].
Qed.

(** Any other key leaves the timer as it is. *)
Lemma other_key_keeps (b now : Z) (st : TimerState) :
  b <> 112 -> b <> 80 -> pauseLogic now (setBuf b st) = setBuf b st.
Proof.
  intros H1 H2. unfold pauseLogic. simpl.
  destruct (Z.eqb_spec b 112), (Z.eqb_spec b 80); done.
Qed.

(** Induction over a list two elements at a time. *)
Lemma list_pair_ind {A : Type} (P : list A -> Prop) :
  P [] -> (forall x, P [x]) -> (forall x y l, P l -> P (x :: y :: l)) ->
  forall l, P l.
Proof.
  intros Hnil Hone Hpair l.
  enough (H : P l /\ forall x, P (x :: l)) by apply H.
  induction l as [|y l [IH1 IH2]]; split; auto.
Qed.

(** Replaying toggles on a running timer whose accumulated pause fits
    below the next clock reading adds the completed intervals. *)
Lemma replay_accumulates (t0 : Z) (toggles : list (Z * Z)) :
  Forall (fun k => k.1 = 112 \/ k.1 = 80) toggles ->
  forall (st : TimerState) (from : Z),
    isPaused st = false ->
    0 <= t0 <= from ->
    0 <= pausedDuration st <= from - t0 ->
    clockOrdered from toggles.*2 ->
    pausedDuration (replayKeys toggles st)
    = pausedDuration st + totalPaused (pauseIntervals toggles.*2).
Proof.
  induction toggles as [| [b t] | [b1 p] [b2 r] rest IH] using list_pair_ind;
    intros Hkeys st from Hrun Hfrom Hacc Hclock.
  - simpl. lia.
  - inversion Hkeys as [|? ? Hb _]; subst. simpl in Hb.
    unfold replayKeys, foldl. cbn [fst snd].
    rewrite toggle_pauses by done. simpl. lia.
  - inversion Hkeys as [|? ? Hb1 Hkeys']; subst.
    inversion Hkeys' as [|? ? Hb2 Hrest]; subst. simpl in Hb1, Hb2.
    simpl in Hclock. destruct Hclock as (Hp & Hr & Hclock).
    pose proof (clockOrdered_bound _ _ Hclock) as Hlast.
    change (replayKeys ((b1, p) :: (b2, r) :: rest) st)
      with (replayKeys rest
              (pauseLogic r (setBuf b2 (pauseLogic p (setBuf b1 st))))).
    rewrite (toggle_pauses b1 p st) by done.
    rewrite (toggle_resumes b2 r p) by done. simpl.
    rewrite subMono_small by lia. rewrite wrap64_small by lia.
    rewrite (IH Hrest _ r); simpl; try done; try lia.
    unfold totalPaused, fmap. simpl. lia.
Qed.

End TimerFacts.

Section TimerClaims.
Import Duration.

(** C4: replaying a finite sequence of toggle keys ('p' or 'P') read at
    the clock readings of one run, on a timer started at [t0], leaves as
    accumulated paused duration the sum of (resume - pause) over the
    completed pause intervals; and for a start at [t0], a pause 5 s
    later, a resume 8 s later, the elapsed time computed 10 s later is
    7 s. *)
Theorem C4_paused_duration_is_sum (t0 : Z) (toggles : list (Z * Z)) :
  0 <= t0 ->
  clockOrdered t0 toggles.*2 ->
  Forall (fun k => k.1 = 112 \/ k.1 = 80) toggles ->
  pausedDuration (replayKeys toggles (initialTimer t0))
  = totalPaused (pauseIntervals toggles.*2)
  /\ (t0 + 10 * Second < 2 ^ 63 ->
      let st := replayKeys [(112, t0 + 5 * Second); (112, t0 + 8 * Second)]
                  (initialTimer t0) in
      pausedDuration st = 3 * Second
      /\ isPaused st = false
      /\ elapsedShown (t0 + 10 * Second) st = 7 * Second).
Proof.
  intros Ht0 Hclock Hkeys. split.
  - rewrite (replay_accumulates t0 toggles Hkeys _ t0); simpl; try done; lia.
  - intros Hend st.
    assert (Hst : st = mkTimer false (MonoTime t0) (3 * Second)
                         (MonoTime (t0 + 5 * Second)) 112).
    { subst st. unfold replayKeys, foldl. cbn [fst snd].
      rewrite (toggle_pauses 112 _ (initialTimer t0))
        by first [by left | done].
      rewrite (toggle_resumes 112 _ (t0 + 5 * Second))
        by first [by left | done].
      simpl. unfold Second in *. rewrite subMono_small by lia.
      rewrite wrap64_small by lia. f_equal. lia. }
    rewrite Hst. simpl. split; [done |]. split; [done |].
    unfold elapsedShown. simpl. unfold Second in *.
    rewrite subMono_small by lia. rewrite wrap64_small by lia. lia.
Qed.

Lemma C4_paused_duration_is_sum_witness :
  pausedDuration
    (replayKeys [(112, 5); (80, 8); (80, 20); (112, 21); (112, 30)]
       (initialTimer 1))
  = (8 - 5) + (21 - 20).
Proof.
  refine (proj1 (C4_paused_duration_is_sum 1
                   [(112, 5); (80, 8); (80, 20); (112, 21); (112, 30)]
                   _ _ _)).
  - lia.
  - simpl. lia.
  - repeat (constructor; [simpl; auto |]). constructor.
Defined.

(** While a pause is in progress the elapsed time the loop computes
    still advances with the clock, and differs from the specified
    elapsed time by the length of the pause so far. *)
Lemma elapsedShown_during_pause (t0 p now : Z) :
  0 <= t0 <= p -> p <= now < 2 ^ 63 ->
  let st := replayKeys [(112, p)] (initialTimer t0) in
  pauseInProgress st = Some p
  /\ elapsedShown now st = now - t0
  /\ elapsedSpec now t0 (pausedDuration st) (pauseInProgress st) = p - t0.
Proof.
  intros Hp Hnow st. subst st. unfold replayKeys, foldl. cbn [fst snd].
  rewrite toggle_pauses by first [by left | done].
  unfold pauseInProgress, elapsedShown, elapsedSpec. simpl.
  rewrite subMono_small by lia. rewrite wrap64_small by lia.
  repeat split; lia.
Qed.

(** C1, at the failing input: the timer starts at clock reading 0 and
    'p' is read at 5 s. The state is paused, with the pause in progress
    since 5 s. The elapsed time the loop computes is 6 s at the tick of
    6 s and 7 s at the tick of 7 s, where the formula of the claim gives
    5 s both times: the pause in progress is not excluded, and the
    displayed time is not constant while paused. *)
Theorem C1_pause_in_progress_is_counted :
  let st := replayKeys [(112, 5 * Second)] (initialTimer 0) in
  isPaused st = true
  /\ pauseInProgress st = Some (5 * Second)
  /\ elapsedShown (6 * Second) st = 6 * Second
  /\ elapsedShown (7 * Second) st = 7 * Second
  /\ elapsedSpec (6 * Second) 0 (pausedDuration st) (pauseInProgress st)
     = 5 * Second
  /\ elapsedSpec (7 * Second) 0 (pausedDuration st) (pauseInProgress st)
     = 5 * Second
  /\ (hoursOf (elapsedShown (7 * Second) st),
      minutesOf (elapsedShown (7 * Second) st),
      secondsOf (elapsedShown (7 * Second) st)) = (0, 0, 7).
Proof. by vm_compute. Qed.

(** While no pause is in progress, and between clock readings of one
    run, the loop computes the elapsed time of the specification. *)
Lemma elapsedShown_running (t0 acc now : Z) (last : Time) (b : Z) :
  0 <= t0 <= now -> now < 2 ^ 63 -> 0 <= acc <= now - t0 ->
  let st := mkTimer false (MonoTime t0) acc last b in
  elapsedShown now st = elapsedSpec now t0 acc (pauseInProgress st)
  /\ 0 <= elapsedShown now st.
Proof.
  intros Ht0 Hnow Hacc st. subst st.
  unfold elapsedShown, elapsedSpec, pauseInProgress. simpl.
  rewrite subMono_small by lia. rewrite wrap64_small by lia. lia.
Qed.

(** C2, at the failing input: when the watcher reads the byte 'Q' (81)
    it restores nothing and does not exit: the world is as before, with
    nothing logged, and the process goes on running. *)
Theorem C2_upper_Q_does_not_quit
    (fd : Z) (oldState : Termios) (now : Z) (st : TimerState) (w : World) :
  watcherStep fd oldState (Some 81) now st w
  = ((setBuf 81 st, Running), w).
Proof.
  unfold watcherStep, quitLogic. cbv zeta.
  rewrite other_key_keeps by done. done.
Qed.

(** On the byte 3 and on 'q' (113) the watcher restores the terminal
    with the snapshot and then exits with code 0. *)
Lemma quit_restores_then_exits
    (fd : Z) (oldState : Termios) (b now : Z) (st : TimerState) (w : World) :
  b = 3 \/ b = 113 ->
  (watcherStep fd oldState (Some b) now st w).1.2 = Exited 0
  /\ log (watcherStep fd oldState (Some b) now st w).2
     = log w ++ [Ioctl fd TCSETS oldState (nextErrno (faults w)); Exit 0]
  /\ (nextErrno (faults w) = 0 ->
      tty (watcherStep fd oldState (Some b) now st w).2 = oldState).
Proof.
  intros Hb. unfold watcherStep, quitLogic. cbv zeta.
  rewrite other_key_keeps by (destruct Hb; lia). simpl.
  replace ((b =? 3) || (b =? 113)) with true by (by destruct Hb as [-> | ->]).
  unfold mbind, Prog_bind, restoreTerminal, ioctl, mbind, Prog_bind.
  destruct (Z.eqb_spec (nextErrno (faults w)) 0) as [He | He]; simpl.
  - rewrite He. by rewrite <- List.app_assoc.
  - split; [done |]. split; [by rewrite <- List.app_assoc | done].
Qed.

(** C8: on a byte other than 'p', 'P', 'q', 'Q' and 3 the watcher
    leaves the pause flag, the start of the pause, the accumulated
    paused duration and the start time as they were, does nothing to
    the world (no system call, no output, no exit), and the process
    goes on running. *)
Theorem C8_other_bytes_have_no_effect
    (fd : Z) (oldState : Termios) (b now : Z) (st : TimerState) (w : World) :
  b <> 112 -> b <> 80 -> b <> 113 -> b <> 81 -> b <> 3 ->
  let res := watcherStep fd oldState (Some b) now st w in
  isPaused res.1.1 = isPaused st
  /\ pauseStart res.1.1 = pauseStart st
  /\ pausedDuration res.1.1 = pausedDuration st
  /\ startTime res.1.1 = startTime st
  /\ res.1.2 = Running
  /\ res.2 = w.
Proof.
  intros Hp HP Hq HQ H3 res. subst res.
  unfold watcherStep, quitLogic. cbv zeta.
  rewrite other_key_keeps by done. simpl.
  destruct (Z.eqb_spec b 3), (Z.eqb_spec b 113); done.
Qed.

Lemma C8_other_bytes_have_no_effect_witness :
  let st := mkTimer true (MonoTime 0) 0 (MonoTime 5) 112 in
  let w := boot zeroTermios [] in
  (watcherStep 0 zeroTermios (Some 120) 9 st w).1.2 = Running
  /\ (watcherStep 0 zeroTermios (Some 120) 9 st w).2 = w.
Proof.
  intros st w.
  destruct (C8_other_bytes_have_no_effect 0 zeroTermios 120 9 st w)
    as (_ & _ & _ & _ & Hrun & Hw); [lia | lia | lia | lia | lia |].
  split; [exact Hrun | exact Hw].
Defined.

(** C5, at the failing input: for the elapsed duration of
    16777216.999999999 s (a little over 194 days), which the loop
    computes for a timer that was never paused, the decomposition is
    4660 h 20 min 17 s, that is 16777217 whole seconds, one more than
    the 16777216 whole seconds that have elapsed: [Seconds()] is a
    [float64] sum that rounds up to the next whole number. In the same
    way, one nanosecond before 4097 h the hours already read 4097 with
    minutes and seconds at 59, an hour ahead of the elapsed time. *)
Theorem C5_decomposition_exceeds_elapsed :
  let elapsed := 16777216999999999 in
  let before4097h := 4097 * Hour - 1 in
  elapsedShown elapsed (initialTimer 0) = elapsed
  /\ 0 <= elapsed
  /\ hoursOf elapsed = 4660
  /\ minutesOf elapsed = 20
  /\ secondsOf elapsed = 17
  /\ Z.quot elapsed Second = 16777216
  /\ hoursOf elapsed * 3600 + minutesOf elapsed * 60 + secondsOf elapsed
     = 16777217
  /\ ~ (hoursOf elapsed * 3600 + minutesOf elapsed * 60 + secondsOf elapsed
        <= Z.quot elapsed Second)
  /\ (hoursOf before4097h, minutesOf before4097h, secondsOf before4097h)
     = (4097, 59, 59)
  /\ Z.quot before4097h Second = 4096 * 3600 + 59 * 60 + 59.
Proof. by vm_compute. Qed.

End TimerClaims.

(** * Further properties of the code *)

(** ** The renderer *)

Section RenderMore.
Import Strings Fmt.

(** A minus sign anywhere in the text stops the loop over the
    characters: its index is -3. *)
Lemma renderLine_minus (row : nat) (a b : string) :
  forall line, renderLine row (a +:+ String "-" b) line = None.
Proof.
  induction a as [|c a IH]; intros line.
  - done.
  - rewrite app_cons. simpl. destruct (glyphCell row c); simpl; [apply IH | done].
Qed.

Lemma getASCIITime_minus (h m s : Z) (a b : string) :
  Sprintf_02d_02d_02d h m s = a +:+ String "-" b -> getASCIITime h m s = None.
Proof.
  intros Heq. unfold getASCIITime. rewrite Heq.
  change (seq 0 5) with (0%nat :: seq 1 4). cbn [renderRows].
  rewrite renderLine_minus. reflexivity.
Qed.

(** X1: the renderer returns a banner exactly when none of the three
    numbers is negative; a negative hour, minute or second makes the
    glyph lookup panic. *)
Theorem getASCIITime_returns_iff_nonnegative (h m s : Z) :
  is_Some (getASCIITime h m s) <-> 0 <= h /\ 0 <= m /\ 0 <= s.
Proof.
  split.
  - intros Hsome.
    destruct (Z_lt_dec h 0) as [Hh | Hh].
    { destruct (fmtInteger_negative h Hh) as (rest & Hrest).
      rewrite (getASCIITime_minus h m s "" (rest +:+ ":" +:+ fmtInteger m 2
                 +:+ ":" +:+ fmtInteger s 2)) in Hsome.
      - by destruct Hsome.
      - unfold Sprintf_02d_02d_02d. by rewrite Hrest. }
    destruct (Z_lt_dec m 0) as [Hm | Hm].
    { destruct (fmtInteger_negative m Hm) as (rest & Hrest).
      rewrite (getASCIITime_minus h m s (fmtInteger h 2 +:+ ":")
                 (rest +:+ ":" +:+ fmtInteger s 2)) in Hsome.
      - by destruct Hsome.
      - unfold Sprintf_02d_02d_02d. by rewrite Hrest, !app_assoc. }
    destruct (Z_lt_dec s 0) as [Hs | Hs].
    { destruct (fmtInteger_negative s Hs) as (rest & Hrest).
      rewrite (getASCIITime_minus h m s
                 (fmtInteger h 2 +:+ ":" +:+ fmtInteger m 2 +:+ ":") rest)
        in Hsome.
      - by destruct Hsome.
      - unfold Sprintf_02d_02d_02d. by rewrite Hrest, !app_assoc. }
    lia.
  - intros (Hh & Hm & Hs).
    destruct (getASCIITime_rendered h m s) as (rows & -> & _); [| done].
    by apply Sprintf_timeChars.
Qed.

Lemma getASCIITime_returns_iff_nonnegative_witness :
  is_Some (getASCIITime 1 2 3) /\ ~ is_Some (getASCIITime 1 (-2) 3).
Proof.
  split.
  - apply (proj2 (getASCIITime_returns_iff_nonnegative 1 2 3)). lia.
  - intros H. apply (proj1 (getASCIITime_returns_iff_nonnegative 1 (-2) 3)) in H.
    lia.
Defined.

(** Widths add up along a text; a digit takes six columns. *)
Lemma lineWidth_app (a b : string) :
  lineWidth (a +:+ b) = (lineWidth a + lineWidth b)%nat.
Proof.
  unfold lineWidth. rewrite chars_app, foldr_app.
  induction (chars a) as [|c cs IH]; simpl; [done | by rewrite IH, Nat.add_assoc].
Qed.

Lemma lineWidth_digits (a : string) :
  Forall (fun c => isDigit c = true) (chars a) ->
  lineWidth a = (6 * String.length a)%nat.
Proof.
  unfold lineWidth. rewrite <- length_chars.
  induction 1 as [|c cs Hc _ IH]; [done |].
  simpl foldr. rewrite IH. unfold cellWidth.
  replace (isColon c) with false; [simpl; lia |].
  unfold isDigit in Hc. unfold isColon. simpl in *. lia.
Qed.

(** X2: for a valid triple every line of the banner is six columns per
    character of the formatted text less eight (a colon and its space
    take two columns, not six); the text is the hours field and six more
    characters; so up to 99 hours every line is 40 columns wide, which is
    the width of every line of the PAUSED banner drawn over it. *)
Theorem banner_width (h m s : Z) (out l : string) :
  0 <= h -> 0 <= m <= 59 -> 0 <= s <= 59 ->
  getASCIITime h m s = Some out -> l ∈ lines out ->
  (runeCount l + 8 = 6 * String.length (Sprintf_02d_02d_02d h m s))%nat
  /\ String.length (Sprintf_02d_02d_02d h m s)
     = (String.length (fmtInteger h 2) + 6)%nat
  /\ (h <= 99 -> runeCount l = 40%nat)
  /\ Forall (fun p => runeCount p = 40%nat) pausedText.
Proof.
  intros Hh Hm Hs Hout Hl.
  destruct (getASCIITime_rendered h m s) as (rows & Hget & Hlines & Hall).
  { apply Sprintf_timeChars; lia. }
  rewrite Hget in Hout. injection Hout as <-. rewrite Hlines in Hl.
  apply list_elem_of_lookup in Hl as [i Hi].
  destruct (Forall2_lookup_r _ _ _ _ _ Hall Hi) as (row & _ & Hr).
  destruct Hr as (_ & _ & _ & Hw).
  assert (Hlen : String.length (Sprintf_02d_02d_02d h m s)
                 = (String.length (fmtInteger h 2) + 6)%nat).
  { unfold Sprintf_02d_02d_02d. rewrite !length_app.
    rewrite (fmtInteger_length_2 m), (fmtInteger_length_2 s) by done.
    simpl. lia. }
  assert (Hwidth : lineWidth (Sprintf_02d_02d_02d h m s)
                   = (6 * String.length (fmtInteger h 2) + 28)%nat).
  { unfold Sprintf_02d_02d_02d. rewrite !lineWidth_app.
    rewrite (lineWidth_digits (fmtInteger h 2)),
      (lineWidth_digits (fmtInteger m 2)), (lineWidth_digits (fmtInteger s 2))
      by (apply fmtInteger_digits; lia).
    rewrite (fmtInteger_length_2 m), (fmtInteger_length_2 s) by done.
    change (lineWidth ":") with 2%nat. lia. }
  split; [rewrite Hw, Hwidth, Hlen; lia |]. split; [done |].
  split; [| by repeat constructor].
  intros H99. rewrite Hw, Hwidth.
  destruct (Z_lt_dec h 10).
  - rewrite fmtInteger_one_digit by lia. simpl. lia.
  - rewrite fmtInteger_natural, fmtDecimal_length_2 by lia. lia.
Qed.

Lemma banner_width_witness :
  Forall (fun l => runeCount l = 40%nat)
    (lines (default "" (getASCIITime 12 34 56))).
Proof.
  apply Forall_forall. intros l Hl.
  refine (proj1 (proj2 (proj2
            (banner_width 12 34 56 (default "" (getASCIITime 12 34 56)) l
               _ _ _ _ Hl))) _); first [lia | reflexivity].
Defined.

(** Splitting at a separator. *)
Lemma splitOn_free (sep : Z) (a : string) :
  freeOf sep a = true -> splitOn sep a = [a].
Proof.
  induction a as [|c a IH]; [done |]. simpl.
  intros [Hc Ha]%andb_prop. apply negb_true_iff in Hc. rewrite Hc.
  by rewrite (IH Ha).
Qed.

Lemma splitOn_app (sep : Z) (a rest : string) (c : ascii) :
  freeOf sep a = true -> byteVal c = sep ->
  splitOn sep (a +:+ String c rest) = a :: splitOn sep rest.
Proof.
  intros Ha Hc. induction a as [|x a IH].
  - simpl. rewrite Hc, Z.eqb_refl. done.
  - rewrite app_cons. simpl in *.
    apply andb_prop in Ha as [Hx Ha]. apply negb_true_iff in Hx.
    rewrite Hx. by rewrite (IH Ha).
Qed.

Lemma digits_free_of_colon (a : string) :
  Forall (fun c => isDigit c = true) (chars a) -> freeOf 58 a = true.
Proof.
  induction a as [|c a IH]; [done |].
  change (chars (String c a)) with (c :: chars a).
  intros Hall. inversion Hall as [|? ? Hc Ha]; subst. simpl.
  rewrite (IH Ha), andb_true_r. apply negb_true_iff.
  unfold isDigit in Hc. simpl in *. lia.
Qed.

Lemma decimalValue_fmtInteger (n : Z) :
  0 <= n -> decimalValue (fmtInteger n 2) = n.
Proof.
  intros Hn. destruct (Z_lt_dec n 10).
  - rewrite fmtInteger_one_digit by lia. unfold decimalValue. simpl.
    rewrite glyphIndex_digitByte by lia. change (glyphIndex "0") with 0. lia.
  - rewrite fmtInteger_natural by lia. by apply decimalValue_fmtDecimal.
Qed.

(** X3: the formatted text reads back: for numbers that are not
    negative, splitting it at the colons and reading each field as a
    decimal numeral gives the hours, the minutes and the seconds, so
    different times are never formatted alike. *)
Theorem timestamp_round_trip (h m s : Z) :
  0 <= h -> 0 <= m -> 0 <= s ->
  decimalValue <$> splitOn 58 (Sprintf_02d_02d_02d h m s) = [h; m; s].
Proof.
  intros Hh Hm Hs. unfold Sprintf_02d_02d_02d.
  change (fmtInteger h 2 +:+ ":" +:+ fmtInteger m 2 +:+ ":" +:+ fmtInteger s 2)
    with (fmtInteger h 2 +:+ String ":"
            (fmtInteger m 2 +:+ String ":" (fmtInteger s 2))).
  rewrite splitOn_app
    by first [reflexivity | by apply digits_free_of_colon, fmtInteger_digits].
  rewrite splitOn_app
    by first [reflexivity | by apply digits_free_of_colon, fmtInteger_digits].
  rewrite splitOn_free by (by apply digits_free_of_colon, fmtInteger_digits).
  simpl. by rewrite !decimalValue_fmtInteger.
Qed.

Lemma timestamp_round_trip_witness :
  decimalValue <$> splitOn 58 (Sprintf_02d_02d_02d 123 4 56) = [123; 4; 56].
Proof. apply timestamp_round_trip; lia. Defined.

End RenderMore.

(** ** The terminal mode controller *)

Section TerminalMore.

(** X4: entering raw mode and restoring is a round trip: after a
    [makeRaw] that succeeded, [restoreTerminal] with the snapshot it
    returned puts back exactly the settings the terminal had; if the
    restoring call fails, its errno is returned and the terminal stays
    in raw mode. *)
Theorem makeRaw_restore_round_trip (fd : Z) (term : Termios) (errnos : list Z) :
  nextErrno errnos = 0 -> nextErrno (tail errnos) = 0 ->
  let entered := makeRaw fd (boot term errnos) in
  entered.1 = Ok term
  /\ tty entered.2 = rawSettings term
  /\ let restored := restoreTerminal fd term entered.2 in
     restored.1 = nextErrno (tail (tail errnos))
     /\ (restored.1 = 0 -> tty restored.2 = term)
     /\ (restored.1 <> 0 -> tty restored.2 = rawSettings term).
Proof.
  intros He1 He2 entered. subst entered.
  rewrite makeRaw_succeeds by done. simpl.
  split; [done |]. split; [done |].
  unfold restoreTerminal, mbind, Prog_bind, ioctl. simpl.
  destruct (Z.eqb_spec (nextErrno (tail (tail errnos))) 0) as [He3 | He3]; simpl.
  - rewrite He3. split; [done |]. split; [done | intros; lia].
  - split; [done |]. split; [intros; lia | done].
Qed.

Lemma makeRaw_restore_round_trip_witness :
  let term := mkTermios 0x500 0x5 0xbf 0x8a3b 0 (replicate 19 3) 15 15 in
  tty (restoreTerminal 0 term (makeRaw 0 (boot term [])).2).2 = term.
Proof.
  intros term.
  destruct (makeRaw_restore_round_trip 0 term [] eq_refl eq_refl)
    as (_ & _ & _ & Hback & _).
  apply Hback. reflexivity.
Defined.

(** Clearing bits twice is clearing them once. *)
Lemma ldiff_idem (a m : Z) : Z.ldiff (Z.ldiff a m) m = Z.ldiff a m.
Proof.
  apply Z.bits_inj'. intros i _. rewrite !Z.ldiff_spec.
  by destruct (Z.testbit a i), (Z.testbit m i).
Qed.

(** X5: the raw settings are a fixed point of the change [makeRaw]
    makes: on a terminal that is already in raw mode, [makeRaw] installs
    the settings that are there and returns them as the snapshot. *)
Theorem makeRaw_idempotent (fd : Z) (term : Termios) (errnos : list Z) :
  rawSettings (rawSettings term) = rawSettings term
  /\ (nextErrno errnos = 0 -> nextErrno (tail errnos) = 0 ->
      let again := makeRaw fd (boot (rawSettings term) errnos) in
      again.1 = Ok (rawSettings term) /\ tty again.2 = rawSettings term).
Proof.
  assert (Hfix : rawSettings (rawSettings term) = rawSettings term).
  { unfold rawSettings. simpl. f_equal.
    - apply ldiff_idem.
    - rewrite (list_insert_insert_ne _ (Z.to_nat VMIN) (Z.to_nat VTIME))
        by (unfold VMIN, VTIME; lia).
      by rewrite !list_insert_insert_eq. }
  split; [done |]. intros He1 He2 again. subst again.
  rewrite makeRaw_succeeds by done. simpl. by rewrite Hfix.
Qed.

Lemma makeRaw_idempotent_witness :
  let term := mkTermios 0x500 0x5 0xbf 0x8a3b 0 (replicate 19 3) 15 15 in
  tty (makeRaw 0 (boot (rawSettings term) [])).2 = rawSettings term.
Proof.
  intros term.
  apply (proj2 (makeRaw_idempotent 0 term [])); reflexivity.
Defined.

(** Clearing bits of a number that is not negative does not make it
    larger. *)
Lemma ldiff_bounds (a m : Z) : 0 <= a -> 0 <= Z.ldiff a m <= a.
Proof.
  intros Ha.
  assert (Hsum : Z.ldiff a m + Z.land a m = a).
  { rewrite Z.add_nocarry_lxor.
    - apply Z.bits_inj'. intros i _.
      rewrite Z.lxor_spec, Z.ldiff_spec, Z.land_spec.
      by destruct (Z.testbit a i), (Z.testbit m i).
    - apply Z.bits_inj'. intros i _.
      rewrite Z.land_spec, Z.ldiff_spec, Z.land_spec, Z.bits_0.
      by destruct (Z.testbit a i), (Z.testbit m i). }
  assert (0 <= Z.ldiff a m) by (apply Z.ldiff_nonneg; by left).
  assert (0 <= Z.land a m) by (apply Z.land_nonneg; by left).
  lia.
Qed.

(** X6: the settings [makeRaw] installs fit the Go types of [Termios]
    whenever the ones it read do: the local flags stay a [uint32] and do
    not grow, the control characters stay 19 bytes. *)
Theorem rawSettings_well_formed (term : Termios) :
  wfTermios term ->
  wfTermios (rawSettings term) /\ Lflag (rawSettings term) <= Lflag term.
Proof.
  intros (Hi & Ho & Hc & Hl & Hline & Hlen & Hcc & Hisp & Hosp).
  pose proof (ldiff_bounds (Lflag term) (Z.lor ICANON ECHO) (proj1 Hl)) as Hb.
  split; [| unfold rawSettings; simpl; lia].
  unfold wfTermios, rawSettings. simpl.
  split; [done |]. split; [done |]. split; [done |]. split; [lia |].
  split; [done |]. split; [by rewrite !length_insert |].
  split; [| done].
  apply Forall_insert; [apply Forall_insert; [done | lia] | lia].
Qed.

Lemma rawSettings_well_formed_witness :
  wfTermios (rawSettings (mkTermios 0x500 0x5 0xbf 0x8a3b 0 (replicate 19 3) 15 15)).
Proof.
  apply rawSettings_well_formed.
  unfold wfTermios. simpl.
  do 5 (split; [lia |]). split; [reflexivity |]. split; [| lia].
  repeat (constructor; [lia |]). constructor.
Defined.

End TerminalMore.

(** ** Runs of the whole program *)

Section RunFacts.
Import Strings.

(** The world after [emit]. *)
Lemma emit_world (e : Event) (w : World) :
  emit e w = (tt, mkWorld (tty w) (faults w) (log w ++ [e])).
Proof. reflexivity. Qed.

(** A printed line is no cursor sequence: it ends in a line break. *)
Lemma frameEvent_line (text : string) : frameEvent (Print (text +:+ nl)) = true.
Proof.
  unfold frameEvent. apply negb_true_iff, String.eqb_neq. intros Heq.
  apply (f_equal oneLine) in Heq. rewrite oneLine_app in Heq.
  change (oneLine nl) with false in Heq. rewrite andb_false_r in Heq.
  discriminate Heq.
Qed.

(** A tick only draws: it leaves the terminal settings alone, makes no
    system call, and either goes on or panics. *)
Lemma tickStep_trace (now : Z) (st : TimerState) (w : World) :
  exists mid,
    Forall (fun e => frameEvent e = true) mid
    /\ (tickStep now st w).2 = mkWorld (tty w) (faults w) (log w ++ mid)
    /\ ((tickStep now st w).1 = Running \/ (tickStep now st w).1 = Panicked).
Proof.
  unfold tickStep. cbv zeta.
  generalize (getASCIITime (hoursOf (elapsedShown now st))
                (minutesOf (elapsedShown now st))
                (secondsOf (elapsedShown now st))).
  intros [banner |]; [destruct (isPaused st) |];
    unfold clearScreen, mbind, Prog_bind, mret, Prog_ret, emit;
    cbn [fst snd tty faults log]; rewrite <- ?List.app_assoc;
    (eexists; split; [| split; [reflexivity | auto]]);
    repeat (constructor; [first [apply frameEvent_line | reflexivity] |]);
    constructor.
Qed.

(** The pause logic leaves the buffer alone. *)
Lemma pauseLogic_buf0 (now : Z) (st : TimerState) :
  buf0 (pauseLogic now st) = buf0 st.
Proof.
  unfold pauseLogic.
  destruct ((buf0 st =? 112) || (buf0 st =? 80)); [| done].
  destruct (negb (isPaused st)); [done |].
  by destruct (negb (IsZero (pauseStart st))).
Qed.

(** A turn of the watcher either goes on, with the world untouched, or
    quits: one restoring call, then the exit with code 0. *)
Lemma watcherStep_trace (fd : Z) (oldState : Termios) (read : option Z)
    (now : Z) (st : TimerState) (w : World) :
  let res := watcherStep fd oldState read now st w in
  (res.1.2 = Running /\ res.2 = w)
  \/ (res.1.2 = Exited 0
      /\ res.2 = mkWorld (if nextErrno (faults w) =? 0 then oldState else tty w)
                   (tail (faults w))
                   (log w ++ [Ioctl fd TCSETS oldState (nextErrno (faults w));
                              Exit 0])).
Proof.
  unfold watcherStep, quitLogic. cbv zeta.
  destruct ((buf0 _ =? 3) || (buf0 _ =? 113)); [right | by left].
  unfold mbind, Prog_bind, restoreTerminal, ioctl, mbind, Prog_bind.
  destruct (Z.eqb_spec (nextErrno (faults w)) 0) as [He | He]; simpl.
  - rewrite He. by rewrite <- List.app_assoc.
  - by rewrite <- List.app_assoc.
Qed.

(** How the loops can end, and what the log and the terminal are then. *)
Lemma runLoops_trace (fd : Z) (oldState : Termios) (inputs : list Input) :
  forall (st : TimerState) (w : World),
    loopsEnd fd oldState w (runLoops fd oldState inputs st w).1.2
      (runLoops fd oldState inputs st w).2.
Proof.
  assert (Hwatch : forall read now rest st w,
            (forall st w, loopsEnd fd oldState w
                            (runLoops fd oldState rest st w).1.2
                            (runLoops fd oldState rest st w).2) ->
            loopsEnd fd oldState w
              (('(st, status) ← watcherStep fd oldState read now st;
                match status with
                | Running => runLoops fd oldState rest st
                | _ => mret (st, status)
                end) w).1.2
              (('(st, status) ← watcherStep fd oldState read now st;
                match status with
                | Running => runLoops fd oldState rest st
                | _ => mret (st, status)
                end) w).2).
  { intros read now rest st w IH. unfold mbind, Prog_bind.
    pose proof (watcherStep_trace fd oldState read now st w) as Hstep.
    destruct (watcherStep fd oldState read now st w) as [[st' status] w'].
    simpl in Hstep. destruct Hstep as [[-> ->] | [-> ->]].
    - apply IH.
    - exists []. split; [constructor | done]. }
  induction inputs as [|input rest IH]; intros st w.
  - exists []. split; [constructor |]. simpl. destruct w. simpl.
    by rewrite List.app_nil_r.
  - destruct input as [b now | now | now |].
    + by apply Hwatch.
    + by apply Hwatch.
    + cbn [runLoops]. unfold mbind, Prog_bind.
      destruct (tickStep_trace now st w) as (mid1 & Hmid1 & Hw1 & Hs1).
      destruct (tickStep now st w) as [status w1]. simpl in Hw1, Hs1.
      destruct Hs1 as [-> | ->].
      * destruct (IH st w1) as (mid2 & Hmid2 & Hres). subst w1.
        exists (mid1 ++ mid2). split; [by apply Forall_app |].
        destruct (runLoops fd oldState rest st _) as [[st' status'] w2].
        simpl in *. destruct status'; rewrite <- ?List.app_assoc;
          rewrite <- ?List.app_assoc in Hres; done.
      * exists mid1. split; [done |]. simpl. done.
    + exists []. split; [constructor |]. reflexivity.
Qed.

(** The world after [restoreTerminal]. *)
Lemma restoreTerminal_world (fd : Z) (oldState : Termios) (w : World) :
  restoreTerminal fd oldState w
  = (nextErrno (faults w),
     mkWorld (if nextErrno (faults w) =? 0 then oldState else tty w)
       (tail (faults w))
       (log w ++ [Ioctl fd TCSETS oldState (nextErrno (faults w))])).
Proof.
  unfold restoreTerminal, mbind, Prog_bind, ioctl.
  by destruct (Z.eqb_spec (nextErrno (faults w)) 0) as [-> |].
Qed.

(** A run whose startup succeeded. *)
Lemma RunTimer_started (t0 : Z) (inputs : list Input) (term : Termios)
    (errnos : list Z) :
  nextErrno errnos = 0 -> nextErrno (tail errnos) = 0 ->
  runEnd term (tail (tail errnos))
    (RunTimer t0 inputs (boot term errnos)).1
    (RunTimer t0 inputs (boot term errnos)).2.
Proof.
  intros He1 He2.
  enough (Hres : exists status w',
            RunTimer t0 inputs (boot term errnos) = (status, w')
            /\ runEnd term (tail (tail errnos)) status w')
    by (destruct Hres as (status & w' & -> & Hend); exact Hend).
  unfold RunTimer. cbv zeta.
  unfold mbind at 1, Prog_bind at 1. rewrite makeRaw_succeeds by done.
  unfold mbind, Prog_bind, clearScreen, emit. cbn [tty faults log boot].
  match goal with
  | |- context [runLoops 0 term inputs (initialTimer t0) ?W] =>
      pose proof (runLoops_trace 0 term inputs (initialTimer t0) W) as Hloops;
      destruct (runLoops 0 term inputs (initialTimer t0) W) as [[st status] w1]
  end.
  destruct Hloops as (mid & Hmid & Hend). cbn [fst snd] in Hend.
  unfold runEnd. cbv zeta.
  destruct status as [| | code |]; cbn [tty faults log] in Hend.
  - subst w1. eexists _, _. split; [reflexivity |].
    exists mid. split; [done |]. by rewrite <- !List.app_assoc.
  - subst w1. rewrite restoreTerminal_world. cbn [tty faults log].
    eexists _, _. split; [reflexivity |].
    exists mid. split; [done |]. by rewrite <- !List.app_assoc.
  - destruct Hend as [-> ->]. eexists _, _. split; [reflexivity |].
    exists mid. split; [done |]. split; [done |].
    by rewrite <- !List.app_assoc.
  - subst w1. rewrite restoreTerminal_world. cbn [tty faults log].
    eexists _, _. split; [reflexivity |].
    exists mid. split; [done |]. by rewrite <- !List.app_assoc.
Qed.

(** A run whose startup failed has returned. *)
Lemma RunTimer_not_started (t0 : Z) (inputs : list Input) (term : Termios)
    (errnos : list Z) :
  nextErrno errnos <> 0 \/ nextErrno (tail errnos) <> 0 ->
  (RunTimer t0 inputs (boot term errnos)).1 = Returned
  /\ GoWatcher ∉ log (RunTimer t0 inputs (boot term errnos)).2.
Proof.
  intros Hfail.
  enough (Hres : exists w',
            RunTimer t0 inputs (boot term errnos) = (Returned, w')
            /\ GoWatcher ∉ log w')
    by (destruct Hres as (w' & -> & Hlog); done).
  unfold RunTimer. cbv zeta. unfold mbind at 1, Prog_bind at 1.
  destruct (Z.eq_dec (nextErrno errnos) 0) as [He1 | He1].
  - rewrite makeRaw_install_fails by (simpl; lia).
    eexists. split; [reflexivity |]. simpl. intros Hin.
    apply list_elem_of_In in Hin. simpl in Hin.
    by repeat destruct Hin as [Hin | Hin].
  - rewrite makeRaw_query_fails by done.
    eexists. split; [reflexivity |]. simpl. intros Hin.
    apply list_elem_of_In in Hin. simpl in Hin.
    by repeat destruct Hin as [Hin | Hin].
Qed.

End RunFacts.

Section RunMore.
Import Strings.


(** The sequence that shows the cursor is not part of the startup and is
    not a frame. *)
Lemma showCursor_not_drawn (term : Termios) (mid : list Event) :
  Forall (fun e => frameEvent e = true) mid ->
  Print showCursor ∉ startupLog term ++ mid.
Proof.
  intros Hmid Hin. apply elem_of_app in Hin as [Hin | Hin].
  - apply list_elem_of_In in Hin. simpl in Hin.
    repeat destruct Hin as [Hin | Hin]; try discriminate Hin; done.
  - rewrite Forall_forall in Hmid. specialize (Hmid _ Hin).
    unfold frameEvent in Hmid. by rewrite String.eqb_refl in Hmid.
Qed.





End RunMore.

(** ** The watcher and the pause accounting *)

Section WatcherMore.
Import Duration.

Lemma isToggle_spec (b : Z) : isToggle b = true <-> b = 112 \/ b = 80.
Proof.
  unfold isToggle. destruct (Z.eqb_spec b 112), (Z.eqb_spec b 80); simpl;
    intuition (try lia; try discriminate).
Qed.

(** On a toggle byte in the buffer the pause flag flips, whatever else
    the state holds; on any other byte nothing changes. *)
Lemma pauseLogic_flips (now : Z) (st : TimerState) :
  isToggle (buf0 st) = true ->
  isPaused (pauseLogic now st) = negb (isPaused st)
  /\ startTime (pauseLogic now st) = startTime st.
Proof.
  intros Hb. unfold pauseLogic. unfold isToggle in Hb. rewrite Hb.
  destruct (isPaused st); simpl; [| done].
  by destruct (IsZero (pauseStart st)).
Qed.

Lemma pauseLogic_skips (now : Z) (st : TimerState) :
  isToggle (buf0 st) = false -> pauseLogic now st = st.
Proof. intros Hb. unfold pauseLogic. unfold isToggle in Hb. by rewrite Hb. Qed.

(** A failed read handles the byte left in the buffer once more. *)
Lemma failed_read_step (fd : Z) (oldState : Termios) (now : Z)
    (st : TimerState) (w : World) :
  buf0 st <> 3 -> buf0 st <> 113 ->
  watcherStep fd oldState None now st w = ((pauseLogic now st, Running), w).
Proof.
  intros H3 Hq. unfold watcherStep, quitLogic. cbv zeta.
  rewrite pauseLogic_buf0.
  destruct (Z.eqb_spec (buf0 st) 3), (Z.eqb_spec (buf0 st) 113); done.
Qed.

(** X10: reads that fail (end of input) are not noticed by the watcher,
    which handles the byte left in its buffer again each time: after a
    'p' or 'P' every failed read toggles the pause once more, and the
    watcher never quits; with any other byte left there, or none yet,
    failed reads change nothing. *)
Theorem failed_reads_replay_the_buffer
    (fd : Z) (oldState : Termios) (nows : list Z) (st : TimerState) (w : World) :
  (isToggle (buf0 st) = true ->
     exists st',
       runLoops fd oldState (ReadError <$> nows) st w = ((st', Running), w)
       /\ isPaused st' = xorb (isPaused st) (Nat.odd (length nows))
       /\ buf0 st' = buf0 st)
  /\ (isToggle (buf0 st) = false -> buf0 st <> 3 -> buf0 st <> 113 ->
      runLoops fd oldState (ReadError <$> nows) st w = ((st, Running), w)).
Proof.
  split.
  - revert st. induction nows as [|now nows IH]; intros st Hb.
    + exists st. simpl. by destruct (isPaused st).
    + assert (Hne : buf0 st <> 3 /\ buf0 st <> 113)
        by (apply isToggle_spec in Hb; lia).
      destruct (IH (pauseLogic now st)) as (st' & Hrun & Hflag & Hbuf).
      { by rewrite pauseLogic_buf0. }
      exists st'. cbn [fmap list_fmap runLoops]. unfold mbind, Prog_bind.
      rewrite failed_read_step by tauto. cbn [fst snd].
      split; [exact Hrun |]. rewrite Hflag, Hbuf, pauseLogic_buf0.
      split; [| done].
      destruct (pauseLogic_flips now st Hb) as [-> _].
      change (length (now :: nows)) with (S (length nows)).
      rewrite Nat.odd_succ, <- Nat.negb_odd.
      by destruct (isPaused st), (Nat.odd (length nows)).
  - intros Hb H3 Hq. induction nows as [|now nows IH]; [done |].
    cbn [fmap list_fmap runLoops]. unfold mbind, Prog_bind.
    rewrite failed_read_step by done. cbn [fst snd].
    rewrite pauseLogic_skips by done. exact IH.
Qed.

Lemma failed_reads_replay_the_buffer_witness :
  let st := replayKeys [(112, 5)] (initialTimer 0) in
  let w := boot zeroTermios [] in
  exists st',
    runLoops 0 zeroTermios (ReadError <$> [6; 7; 8]) st w = ((st', Running), w)
    /\ isPaused st' = false.
Proof.
  intros st w.
  destruct (proj1 (failed_reads_replay_the_buffer 0 zeroTermios [6; 7; 8] st w)
              eq_refl) as (st' & Hrun & Hflag & _).
  exists st'. split; [exact Hrun | exact Hflag].
Defined.

(** Two states that differ at most in the buffer. *)
Lemma key_skipped (b now : Z) (st : TimerState) :
  isToggle b = false -> setBuf 0 (pauseLogic now (setBuf b st)) = setBuf 0 st.
Proof. intros Hb. by rewrite pauseLogic_skips. Qed.

Lemma key_toggles_alike (b1 b2 now : Z) (st1 st2 : TimerState) :
  isToggle b1 = true -> isToggle b2 = true -> setBuf 0 st1 = setBuf 0 st2 ->
  setBuf 0 (pauseLogic now (setBuf b1 st1))
  = setBuf 0 (pauseLogic now (setBuf b2 st2)).
Proof.
  intros H1 H2 Hsame. destruct st1, st2. unfold setBuf in *. simpl in *.
  injection Hsame as -> -> -> ->.
  unfold pauseLogic. simpl. unfold isToggle in H1, H2. rewrite H1, H2.
  destruct isPaused1; simpl; [| done]. by destruct (IsZero pauseStart1).
Qed.

(** Replaying keys is replaying the toggle keys among them. *)
Lemma replay_filter (keys : list (Z * Z)) :
  forall st1 st2, setBuf 0 st1 = setBuf 0 st2 ->
    setBuf 0 (replayKeys keys st1)
    = setBuf 0 (replayKeys (filter (fun k => isToggle k.1 = true) keys) st2).
Proof.
  induction keys as [|[b now] keys IH]; intros st1 st2 Hsame; [done |].
  change (replayKeys ((b, now) :: keys) st1)
    with (replayKeys keys (pauseLogic now (setBuf b st1))).
  destruct (isToggle b) eqn:Hb.
  - rewrite filter_cons_True by done.
    change (replayKeys ((b, now) :: ?l) st2)
      with (replayKeys l (pauseLogic now (setBuf b st2))).
    apply IH. by apply key_toggles_alike.
  - rewrite filter_cons_False by (simpl; congruence).
    apply IH. by rewrite key_skipped.
Qed.

(** No key changes the start time. *)
Lemma replay_startTime (keys : list (Z * Z)) :
  forall st, startTime (replayKeys keys st) = startTime st.
Proof.
  induction keys as [|[b t] keys IH]; intros st; [done |].
  change (replayKeys ((b, t) :: keys) st)
    with (replayKeys keys (pauseLogic t (setBuf b st))).
  rewrite IH. destruct (isToggle b) eqn:Hb.
  - by destruct (pauseLogic_flips t (setBuf b st) Hb) as [_ ->].
  - by rewrite pauseLogic_skips.
Qed.

(** Ordered readings stay ordered from an earlier start and when some
    are left out. *)
Lemma clockOrdered_weaken (ts : list Z) (from from' : Z) :
  from' <= from -> clockOrdered from ts -> clockOrdered from' ts.
Proof.
  intros Hle. destruct ts as [|t ts]; simpl; [lia |].
  intros [Ht Hts]. split; [lia | done].
Qed.

Lemma clockOrdered_filter (keys : list (Z * Z)) (tl : list Z) :
  forall from, clockOrdered from (keys.*2 ++ tl) ->
    clockOrdered from ((filter (fun k => isToggle k.1 = true) keys).*2 ++ tl).
Proof.
  induction keys as [|[b t] keys IH]; intros from Hord; [done |].
  destruct Hord as [Hle Hord].
  destruct (isToggle b) eqn:Hb.
  - rewrite filter_cons_True by done. split; [done | by apply IH].
  - rewrite filter_cons_False by (simpl; congruence).
    apply (clockOrdered_weaken _ t); [done | by apply IH].
Qed.

(** The completed pauses of ordered readings fit between the first and
    any later reading. *)
Lemma totalPaused_bounds (ts : list Z) :
  forall from now, clockOrdered from (ts ++ [now]) ->
    0 <= totalPaused (pauseIntervals ts) <= now - from.
Proof.
  induction ts as [| t | p r ts IH] using list_pair_ind; intros from now Hord.
  - simpl in *. unfold totalPaused. simpl. lia.
  - simpl in *. unfold totalPaused. simpl. lia.
  - destruct Hord as (Hp & Hr & Hord). specialize (IH r now Hord).
    change (totalPaused (pauseIntervals (p :: r :: ts)))
      with ((r - p) + totalPaused (pauseIntervals ts)). lia.
Qed.

Lemma clockOrdered_app_last (ts : list Z) (now : Z) :
  forall from, clockOrdered from (ts ++ [now]) ->
    clockOrdered from ts /\ from <= now < 2 ^ 63.
Proof.
  induction ts as [|t ts IH]; intros from Hord.
  - simpl in *. lia.
  - destruct Hord as [Hle Hord]. destruct (IH t Hord) as [Hts Hnow].
    split; [by split | lia].
Qed.

(** X11: keys that are no toggle do not disturb the pause accounting:
    after any sequence of keys read at the readings of one run of the
    clock, the accumulated paused duration is the sum of the completed
    pauses of the toggle keys among them, the timer is paused exactly
    when their number is odd, and the start time is the one set at
    startup. *)
Theorem key_accounting (t0 : Z) (keys : list (Z * Z)) :
  0 <= t0 -> clockOrdered t0 keys.*2 ->
  let st := replayKeys keys (initialTimer t0) in
  pausedDuration st = totalPaused (pauseIntervals (toggleTimes keys))
  /\ isPaused st = Nat.odd (length (toggleTimes keys))
  /\ startTime st = MonoTime t0.
Proof.
  intros Ht0 Hord st.
  pose proof (replay_filter keys (initialTimer t0) (initialTimer t0) eq_refl)
    as Hsame. fold st in Hsame.
  assert (Htoggles : Forall (fun k => k.1 = 112 \/ k.1 = 80)
                       (filter (fun k => isToggle k.1 = true) keys)).
  { apply Forall_forall. intros k Hk. apply list_elem_of_filter in Hk as [Hk _].
    by apply isToggle_spec. }
  assert (Hord' : clockOrdered t0 (toggleTimes keys)).
  { pose proof (clockOrdered_filter keys [] t0) as Hf.
    rewrite !List.app_nil_r in Hf. by apply Hf. }
  split; [| split].
  - change (pausedDuration st) with (pausedDuration (setBuf 0 st)).
    rewrite Hsame. change (pausedDuration (setBuf 0 ?s)) with (pausedDuration s).
    rewrite (replay_accumulates t0 _ Htoggles _ t0); simpl; try done; lia.
  - change (isPaused st) with (isPaused (setBuf 0 st)).
    rewrite Hsame. change (isPaused (setBuf 0 ?s)) with (isPaused s).
    unfold toggleTimes. rewrite length_fmap.
    clear Hsame Hord'. revert Htoggles.
    generalize (filter (fun k => isToggle k.1 = true) keys) as toggles.
    intros toggles Htoggles.
    enough (Hpar : forall s, isPaused (replayKeys toggles s)
                             = xorb (isPaused s) (Nat.odd (length toggles)))
      by (rewrite Hpar; done).
    induction Htoggles as [|[b t] toggles Hb _ IH]; intros s.
    + simpl. by destruct (isPaused s).
    + change (replayKeys ((b, t) :: toggles) s)
        with (replayKeys toggles (pauseLogic t (setBuf b s))).
      rewrite IH. destruct (pauseLogic_flips t (setBuf b s)) as [-> _].
      { by apply isToggle_spec. }
      change (length ((b, t) :: toggles)) with (S (length toggles)).
      rewrite Nat.odd_succ, <- Nat.negb_odd. simpl.
      by destruct (isPaused s), (Nat.odd (length toggles)).
  - subst st. by rewrite replay_startTime.
Qed.

Lemma key_accounting_witness :
  pausedDuration
    (replayKeys [(120, 2); (112, 5); (32, 6); (80, 8); (113, 9); (112, 20)]
       (initialTimer 1))
  = 8 - 5.
Proof.
  refine (proj1 (key_accounting 1
            [(120, 2); (112, 5); (32, 6); (80, 8); (113, 9); (112, 20)] _ _)).
  - lia.
  - simpl. lia.
Defined.

(** X12: at a tick no earlier than the last key, the elapsed time the
    loop computes is the clock time since the start less the completed
    pauses; it is never negative and never more than the clock time
    since the start. *)
Theorem elapsed_within_bounds (t0 now : Z) (keys : list (Z * Z)) :
  0 <= t0 -> clockOrdered t0 (keys.*2 ++ [now]) ->
  let st := replayKeys keys (initialTimer t0) in
  elapsedShown now st
  = now - t0 - totalPaused (pauseIntervals (toggleTimes keys))
  /\ 0 <= elapsedShown now st <= now - t0.
Proof.
  intros Ht0 Hord st.
  destruct (clockOrdered_app_last _ _ _ Hord) as [Hkeys Hnow].
  pose proof (replay_filter keys (initialTimer t0) (initialTimer t0) eq_refl)
    as Hsame. fold st in Hsame.
  assert (Htoggles : Forall (fun k => k.1 = 112 \/ k.1 = 80)
                       (filter (fun k => isToggle k.1 = true) keys)).
  { apply Forall_forall. intros k Hk. apply list_elem_of_filter in Hk as [Hk _].
    by apply isToggle_spec. }
  pose proof (clockOrdered_filter keys [now] t0 Hord) as Hord'.
  destruct (clockOrdered_app_last _ _ _ Hord') as [Hord'' _].
  pose proof (totalPaused_bounds _ _ _ Hord') as Hbound.
  fold (toggleTimes keys) in Hbound.
  assert (Hpd : pausedDuration st
                = totalPaused (pauseIntervals (toggleTimes keys))).
  { change (pausedDuration st) with (pausedDuration (setBuf 0 st)).
    rewrite Hsame. change (pausedDuration (setBuf 0 ?s)) with (pausedDuration s).
    rewrite (replay_accumulates t0 _ Htoggles _ t0); simpl; try done; lia. }
  assert (Hstart : startTime st = MonoTime t0)
    by (subst st; by rewrite replay_startTime).
  unfold elapsedShown. rewrite Hstart, Hpd. simpl.
  rewrite subMono_small by lia. rewrite wrap64_small by lia. lia.
Qed.

Lemma elapsed_within_bounds_witness :
  elapsedShown 30
    (replayKeys [(112, 5); (120, 6); (80, 8); (112, 20)] (initialTimer 1))
  = 30 - 1 - (8 - 5).
Proof.
  refine (proj1 (elapsed_within_bounds 1 30
                   [(112, 5); (120, 6); (80, 8); (112, 20)] _ _)).
  - lia.
  - simpl. lia.
Defined.

(** X13: whenever the timer is paused, the start of the pause is the
    clock reading of the last toggle key, so the test that guards the
    accounting on resume (the start of the pause is not the zero instant)
    never fails and no pause is lost. *)
Theorem paused_since_last_toggle (t0 : Z) (keys : list (Z * Z)) :
  let st := replayKeys keys (initialTimer t0) in
  isPaused st = true ->
  exists p, last (toggleTimes keys) = Some p
            /\ pauseStart st = MonoTime p
            /\ IsZero (pauseStart st) = false.
Proof.
  induction keys as [|[b t] keys IH] using rev_ind; intros st Hpaused.
  - discriminate Hpaused.
  - subst st. unfold replayKeys in *. rewrite foldl_app in *.
    cbn [foldl fst snd] in *. unfold toggleTimes. rewrite filter_app, fmap_app.
    destruct (isToggle b) eqn:Hb.
    + rewrite filter_cons_True, filter_nil by done.
      cbn [fmap list_fmap snd]. rewrite last_snoc. exists t.
      split; [done |].
      revert Hpaused. unfold pauseLogic. cbn [buf0 setBuf].
      unfold isToggle in Hb. rewrite Hb. cbn [isPaused setBuf].
      destruct (isPaused (foldl _ _ keys)); simpl; [| done].
      by destruct (IsZero _).
    + rewrite filter_cons_False, filter_nil by (simpl; congruence).
      cbn [fmap list_fmap]. rewrite List.app_nil_r.
      rewrite pauseLogic_skips in * by done.
      destruct (IH Hpaused) as (p & Hlast & Hstart & Hzero).
      exists p. done.
Qed.

Lemma paused_since_last_toggle_witness :
  pauseStart (replayKeys [(112, 5); (80, 8); (120, 9); (112, 20); (32, 21)]
                (initialTimer 1))
  = MonoTime 20.
Proof.
  destruct (paused_since_last_toggle 1
              [(112, 5); (80, 8); (120, 9); (112, 20); (32, 21)] eq_refl)
    as (p & Hlast & Hstart & _).
  injection Hlast as <-. exact Hstart.
Defined.

End WatcherMore.
